(** * actionize: schema-validated server actions and the [useActionize] hook

    A shallow embedding of [src/lib/createAction.ts] ([createServerAction],
    [createActionConfig]) and of the hook [useActionize], followed by the
    properties of the specification that were checked against them.

    React state cells are threaded explicitly through a small state and
    exception monad; zod schemas are consumed as the capability the code
    uses ([parse], [shape]); the pending flag of [useTransition] is modelled
    from the description the specification gives of it. *)

From stdpp Require Import gmap strings list fin_maps pretty.

Open Scope string_scope.
Open Scope list_scope.

#[local] Set Warnings "-clear-no-such-hyp".

(** ** JavaScript values *)

(** A [FormData] instance: its entries in insertion order; the same name may
    occur more than once. Values are strings at this boundary. *)
Definition FormData : Type := list (string * string).

(** The fragment of JavaScript values the code handles.  [VNum] holds the
    integers whose [String(..)] is their plain decimal notation; a plain
    object is the list of its own enumerable properties in enumeration
    order. *)
#[warnings="-register-all"]
Inductive JsValue : Type :=
| VUndefined
| VNull
| VBool (b : bool)
| VNum (n : Z)
| VStr (s : string)
| VObject (props : list (string * JsValue))
| VFormData (entries : FormData).

(** [String(value)] *)
Definition js_String (value : JsValue) : string :=
  match value with
  | VUndefined => "undefined"
  | VNull => "null"
  | VBool true => "true"
  | VBool false => "false"
  | VNum n => pretty n
  | VStr s => s
  | VObject _ => "[object Object]"
  | VFormData _ => "[object FormData]"
  end.

(** [obj[k] = v] on a plain object: an existing property keeps its place. *)
Fixpoint obj_set (k : string) (v : JsValue) (o : list (string * JsValue))
  : list (string * JsValue) :=
  match o with
  | [] => [(k, v)]
  | (k', v') :: o' =>
      if decide (k = k') then (k, v) :: o' else (k', v') :: obj_set k v o'
  end.

(** [obj[k]] on a plain object, [undefined] when the property is absent. *)
Fixpoint obj_get (k : string) (o : list (string * JsValue)) : JsValue :=
  match o with
  | [] => VUndefined
  | (k', v') :: o' => if decide (k = k') then v' else obj_get k o'
  end.

(** [Object.fromEntries(formData.entries())] *)
Definition fromEntries (formData : FormData) : JsValue :=
  VObject (foldl (fun o kv => obj_set kv.1 (VStr kv.2) o) [] formData).

(** [Object.entries(data)] followed by [formData.append(key, String(value))]
    on a fresh [FormData]. *)
Definition appendEntries (data : list (string * JsValue)) : FormData :=
  (fun kv => (kv.1, js_String kv.2)) <$> data.

(** [array.join(sep)] on an array of strings. *)
Definition join (sep : string) (parts : list string) : string :=
  String.concat sep parts.

(** [a || b] on a possibly [undefined] string: the empty string is falsy. *)
Definition or_else (a : option string) (b : string) : string :=
  match a with
  | Some s => if decide (s = "") then b else s
  | None => b
  end.

(** ** The zod interface *)

Module z.

(** A segment of an issue path: a property name or an array index. *)
Inductive PathSeg : Type :=
| Key (k : string)
| Index (i : Z).

(** [segment.toString()] *)
Definition toString (seg : PathSeg) : string :=
  match seg with
  | Key k => k
  | Index i => pretty i
  end.

Record ZodIssue : Type := {
  path : list PathSeg;
  message : string;
  code : string;
}.

End z.

(** What a [catch] clause can receive.  [error instanceof z.ZodError] holds
    of [ZodError] only; [Error msg] is [new Error(msg)]. *)
Inductive JsError : Type :=
| ZodError (issues : list z.ZodIssue)
| Error (msg : string)
| ThrownValue (v : JsValue).

(** Outcome of an evaluation: a value, or a thrown error.  For a promise:
    fulfilled with a value, or rejected with an error. *)
Inductive Res (A : Type) : Type :=
| Ok (a : A)
| Throw (e : JsError).
Arguments Ok {A} a.
Arguments Throw {A} e.

(** The settled state of a promise. *)
Definition Settled : Type := Res JsValue.

(** A schema of any kind, [z.ZodType]: [parse] returns the parsed value or
    throws (a [ZodError] when validation fails). *)
Record ZodType : Type := {
  parse : JsValue -> Res JsValue;
}.

(** An object schema, [z.ZodObject]: a [ZodType] with a [shape] mapping
    field names to their sub-schemas.  The hook reads it as
    [schema.shape?.[name]], so the shape itself may be missing. *)
Record ZodObject : Type := {
  as_type :> ZodType;
  shape : option (gmap string ZodType);
}.

(** ** Effects: state threaded through code that may throw *)

Definition Eff (S A : Type) : Type := S -> Res A * S.

#[global] Instance eff_ret {S} : MRet (Eff S) := fun A a s => (Ok a, s).
#[global] Instance eff_bind {S} : MBind (Eff S) := fun A B k c s =>
  match c s with
  | (Ok a, s') => k a s'
  | (Throw e, s') => (Throw e, s')
  end.

Definition throw {S A} (e : JsError) : Eff S A := fun s => (Throw e, s).

(** [try { body } catch (error) { handler }]: the state changes the body
    made before throwing are kept. *)
Definition try_catch {S A} (body : Eff S A) (handler : JsError -> Eff S A)
  : Eff S A := fun s =>
  match body s with
  | (Ok a, s') => (Ok a, s')
  | (Throw e, s') => handler e s'
  end.

(** A pure computation that may throw, such as [schema.parse(data)]. *)
Definition lift {S A} (r : Res A) : Eff S A := fun s => (r, s).

Definition modify {S} (f : S -> S) : Eff S unit := fun s => (Ok tt, f s).

(** ** createAction.ts *)

(** Observable calls made by a server action. *)
Inductive Call : Type :=
| HandlerCall (data : JsValue).

(** [await handler(parsedData)], recording the call. *)
Definition call_handler (handler : JsValue -> Settled) (parsedData : JsValue)
  : Eff (list Call) JsValue :=
  modify (fun calls => (calls ++ [HandlerCall parsedData])%list);;
  lift (handler parsedData).

Definition createServerAction (schema : ZodType) (handler : JsValue -> Settled)
  (prevState : JsValue) (formData : FormData) : Eff (list Call) JsValue :=
  try_catch
    (let data := fromEntries formData in
     parsedData ← lift (parse schema data);
     call_handler handler parsedData)
    (fun error =>
       match error with
       | ZodError issues => throw (Error (join ", " (z.message <$> issues)))
       | _ => throw error
       end).

(** The promise the action returns when called from a state with no recorded
    call, and the calls it made. *)
Definition run_action (schema : ZodType) (handler : JsValue -> Settled)
  (prevState : JsValue) (formData : FormData) : Settled * list Call :=
  createServerAction schema handler prevState formData [].

(** ** useActionize *)

Record FieldError : Type := {
  message : string;
  type : string;
}.

#[global] Instance FieldError_eq_dec : EqDecision FieldError.
Proof. solve_decision. Defined.

(** The calls the hook makes to the functions it was configured with. *)
Inductive Event : Type :=
| ActionCall (prevState : JsValue) (formData : FormData)
| OnSuccess (data : JsValue)
| OnError (error : JsError).

(** The argument of [useActionize].  A callback returns [None] when it
    returns normally and [Some e] when it throws [e]. *)
Record ActionizeInput : Type := {
  schema : ZodObject;
  action : JsValue -> FormData -> Settled;
  initialData : JsValue;
  onSuccess : option (JsValue -> option JsError);
  onError : option (JsError -> option JsError);
}.

(** The state cells of one hook instance: the three [useState] cells, the
    transitions started and not yet settled, and the calls made so far. *)
Record HookState : Type := {
  formData : gmap string string;
  errors : gmap string FieldError;
  touchedFields : gset string;
  transitions : list Settled;
  calls : list Event;
}.

(** The cells on the first render. *)
Definition initialState : HookState :=
  {| formData := ∅; errors := ∅; touchedFields := ∅;
     transitions := []; calls := [] |}.

(** Updates of one cell, the others kept. *)
Definition with_formData (update : gmap string string -> gmap string string)
  (st : HookState) : HookState :=
  {| formData := update (formData st); errors := errors st;
     touchedFields := touchedFields st; transitions := transitions st;
     calls := calls st |}.

Definition with_errors
  (update : gmap string FieldError -> gmap string FieldError)
  (st : HookState) : HookState :=
  {| formData := formData st; errors := update (errors st);
     touchedFields := touchedFields st; transitions := transitions st;
     calls := calls st |}.

Definition with_touchedFields (update : gset string -> gset string)
  (st : HookState) : HookState :=
  {| formData := formData st; errors := errors st;
     touchedFields := update (touchedFields st);
     transitions := transitions st; calls := calls st |}.

Definition with_transitions (update : list Settled -> list Settled)
  (st : HookState) : HookState :=
  {| formData := formData st; errors := errors st;
     touchedFields := touchedFields st;
     transitions := update (transitions st); calls := calls st |}.

Definition with_calls (update : list Event -> list Event)
  (st : HookState) : HookState :=
  {| formData := formData st; errors := errors st;
     touchedFields := touchedFields st; transitions := transitions st;
     calls := update (calls st) |}.

(** [setFormData(update)] *)
Definition setFormData (update : gmap string string -> gmap string string)
  : Eff HookState unit :=
  modify (with_formData update).

(** [setErrors(update)]; [setErrors(value)] is [setErrors (fun _ => value)]. *)
Definition setErrors (update : gmap string FieldError -> gmap string FieldError)
  : Eff HookState unit :=
  modify (with_errors update).

(** [setTouchedFields(update)] *)
Definition setTouchedFields (update : gset string -> gset string)
  : Eff HookState unit :=
  modify (with_touchedFields update).

(** A call to one of the configured functions, noted when it is made. *)
Definition record (ev : Event) : Eff HookState unit :=
  modify (with_calls (fun made => made ++ [ev])%list).

(** Modelled from the spec: the transition primitive of the host framework,
    [useTransition], which is not part of this repository.  "Submit a unit
    of async work; observe a boolean busy flag that becomes true at
    submission start and false at settle; no cancellation."  The work is
    kept as the promise it awaits until that promise settles. *)
Definition startTransition (awaited : Settled) : Eff HookState unit :=
  modify (with_transitions (fun inflight => inflight ++ [awaited])%list).

(** Modelled from the spec: the pending flag of [useTransition], true from
    the start of a transition until it settles. *)
Definition isPending (st : HookState) : bool :=
  bool_decide (transitions st ≠ []).

(** The value the [target] of a change or focus event carries. *)
Record InputEvent : Type := {
  target_value : string;
}.

(** What [register(name)] returns. *)
Record FieldProps : Type := {
  name : string;
  onChange : InputEvent -> Eff HookState unit;
  onBlur : InputEvent -> Eff HookState unit;
  value : string;
}.

(** [issue.path[0]?.toString()], kept when it is truthy. *)
Definition fieldName (issue : z.ZodIssue) : option string :=
  match z.toString <$> head (z.path issue) with
  | Some s => if decide (s = "") then None else Some s
  | None => None
  end.

(** [{ message: issue.message, type: issue.code }] *)
Definition asFieldError (issue : z.ZodIssue) : FieldError :=
  {| message := z.message issue; type := z.code issue |}.

(** The [forEach] over the issues of a failed whole-form validation. *)
Definition fieldErrorsOf (issues : list z.ZodIssue) : gmap string FieldError :=
  foldl (fun fieldErrors issue =>
           match fieldName issue with
           | Some fieldName =>
               <[fieldName := asFieldError issue]> fieldErrors
           | None => fieldErrors
           end) ∅ issues.

(** [schema.shape?.[name]] *)
Definition fieldSchema (schema : ZodObject) (name : string) : option ZodType :=
  shape schema ≫= (fun fields => fields !! name).

(** The field names of an object schema: the keys of its shape. *)
Definition fieldNames (schema : ZodObject) : gset string :=
  match shape schema with
  | Some fields => dom fields
  | None => ∅
  end.

(** [data || formData] in [executeAction]: without [data], the [FormData]
    just created, to which nothing was appended. *)
Definition dataToSubmit (data : option (list (string * JsValue))) : JsValue :=
  match data with
  | Some props => VObject props
  | None => VFormData []
  end.

(** The [FormData] that [executeAction] builds from [data]. *)
Definition submitted (data : option (list (string * JsValue))) : FormData :=
  match data with
  | Some props => appendEntries props
  | None => []
  end.

(** The data passed to [onSuccess], call after call. *)
Definition onSuccess_calls (made : list Event) : list JsValue :=
  omap (fun ev => match ev with OnSuccess data => Some data | _ => None end)
       made.

(** The errors passed to [onError], call after call. *)
Definition onError_calls (made : list Event) : list JsError :=
  omap (fun ev => match ev with OnError error => Some error | _ => None end)
       made.

Section useActionize.

Context (input : ActionizeInput).

(** [useActionState] is given no way to change its state here (the hook
    drops its dispatcher), so [state] stays the initial data. *)
Definition state : JsValue := initialData input.

Definition validateField (name : string) (value : JsValue)
  : Eff HookState unit :=
  try_catch
    (match fieldSchema (schema input) name with
     | Some fieldSchema =>
         lift (parse fieldSchema value);;
         setErrors (fun prev => delete name prev)
     | None => mret tt
     end)
    (fun error =>
       match error with
       | ZodError issues =>
           setErrors (fun prev =>
             <[name := {| message := or_else (z.message <$> head issues)
                                             "Invalid value";
                          type := or_else (z.code <$> head issues)
                                          "invalid" |}]> prev)
       | _ => mret tt
       end).

(** [register(name)] during a render that sees the cells as [rendered]:
    the handlers close over [rendered.touchedFields]. *)
Definition register (rendered : HookState) (name : string) : FieldProps :=
  {| name := name;
     onChange := fun e =>
       let value := target_value e in
       setFormData (fun prev => <[name := value]> prev);;
       if decide (name ∈ touchedFields rendered)
       then validateField name (VStr value)
       else mret tt;
     onBlur := fun e =>
       let value := target_value e in
       setTouchedFields (fun prev => prev ∪ {[name]});;
       validateField name (VStr value);
     value := or_else (formData rendered !! name) "" |}.

Definition getFieldError (rendered : HookState) (name : string)
  : option FieldError :=
  errors rendered !! name.

Definition isValid (rendered : HookState) : bool :=
  bool_decide (size (dom (errors rendered)) = 0).

(** [if (onSuccess) { onSuccess(result); }] *)
Definition call_onSuccess (result : JsValue) : Eff HookState unit :=
  match onSuccess input with
  | Some callback =>
      record (OnSuccess result);;
      match callback result with
      | Some thrown => throw thrown
      | None => mret tt
      end
  | None => mret tt
  end.

(** [if (onError) { onError(error); }] *)
Definition call_onError (error : JsError) : Eff HookState unit :=
  match onError input with
  | Some callback =>
      record (OnError error);;
      match callback error with
      | Some thrown => throw thrown
      | None => mret tt
      end
  | None => mret tt
  end.

(** The callback given to [startTransition], up to its [await]: it calls
    [action] and hands the promise over to the transition. *)
Definition transition (formData : FormData) : Eff HookState unit :=
  record (ActionCall state formData);;
  startTransition (action input state formData).

(** The rest of that callback, run when the awaited promise settles. *)
Definition continuation (awaited : Settled) : Eff HookState unit :=
  try_catch
    (result ← lift awaited;
     call_onSuccess result)
    (fun error => call_onError error).

(** The calls the rest of a transition makes once its promise settled:
    [onSuccess] on fulfilment, and [onError] on rejection or when
    [onSuccess] threw; each only if it was given. *)
Definition settled_calls (awaited : Settled) : list Event :=
  match awaited with
  | Ok result =>
      match onSuccess input with
      | Some callback =>
          OnSuccess result ::
            match callback result, onError input with
            | Some thrown, Some _ => [OnError thrown]
            | _, _ => []
            end
      | None => []
      end
  | Throw error =>
      match onError input with
      | Some _ => [OnError error]
      | None => []
      end
  end.

Definition enhancedFormAction (formDataObj : FormData)
  : Eff HookState unit :=
  try_catch
    (let data := fromEntries formDataObj in
     lift (parse (schema input) data);;
     setErrors (fun _ => ∅);;
     transition formDataObj)
    (fun error =>
       match error with
       | ZodError issues => setErrors (fun _ => fieldErrorsOf issues)
       | _ => mret tt
       end).

Definition executeAction (data : option (list (string * JsValue)))
  : Eff HookState unit :=
  try_catch
    (let formData := submitted data in
     let dataToSubmit := dataToSubmit data in
     lift (parse (schema input) dataToSubmit);;
     transition formData)
    (fun error =>
       match error with
       | ZodError issues =>
           call_onError (Error (join ", " (z.message <$> issues)))
       | _ => mret tt
       end).

Definition buttonDisabled (rendered : HookState) : bool :=
  isPending rendered || negb (isValid rendered).

(** Modelled from the spec: the settling of the transition at position
    [i] among those in flight.  It leaves the list and the rest of its
    callback runs. *)
Definition settle (i : nat) : Eff HookState unit := fun st =>
  match transitions st !! i with
  | Some awaited => continuation awaited (with_transitions (delete i) st)
  | None => (Ok tt, st)
  end.

(** What can happen to a mounted hook.  A DOM event reaches the handlers
    of the latest render. *)
Inductive Step : Type :=
| DoChange (name : string) (e : InputEvent)
| DoBlur (name : string) (e : InputEvent)
| DoFormAction (formDataObj : FormData)
| DoExecuteAction (data : option (list (string * JsValue)))
| DoSettle (i : nat).

Definition step (st : HookState) (s : Step) : HookState :=
  match s with
  | DoChange name e => (onChange (register st name) e st).2
  | DoBlur name e => (onBlur (register st name) e st).2
  | DoFormAction formDataObj => (enhancedFormAction formDataObj st).2
  | DoExecuteAction data => (executeAction data st).2
  | DoSettle i => (settle i st).2
  end.

Definition run (st : HookState) (steps : list Step) : HookState :=
  foldl step st steps.

End useActionize.

(** ** Sample schemas

    The schemas of the examples and tests, as the capability the code
    consumes: what their [parse] answers and what their [shape] holds. *)

Module samples.

Definition issue (message code : string) : z.ZodIssue :=
  {| z.path := []; z.message := message; z.code := code |}.

(** An issue of a field, as its object reports it: the field name is put
    in front of the path. *)
Definition at_key (k : string) (i : z.ZodIssue) : z.ZodIssue :=
  {| z.path := z.Key k :: z.path i; z.message := z.message i;
     z.code := z.code i |}.

(** The name zod's messages give to the type of an input. *)
Definition received (v : JsValue) : string :=
  match v with
  | VUndefined => "undefined"
  | VNull => "null"
  | VBool _ => "boolean"
  | VNum _ => "number"
  | VStr _ => "string"
  | VObject _ => "object"
  | VFormData _ => "FormData"
  end.

Definition invalid_type (expected : string) (v : JsValue) : z.ZodIssue :=
  issue ("Invalid input: expected " +:+ expected +:+ ", received "
           +:+ received v) "invalid_type".

(** [z.string().min(minimum, { message })] *)
Definition string_min (minimum : nat) (message : string) : ZodType :=
  {| parse := fun v =>
       match v with
       | VStr s =>
           if decide (minimum ≤ String.length s)%nat then Ok v
           else Throw (ZodError [issue message "too_small"])
       | _ => Throw (ZodError [invalid_type "string" v])
       end |}.

(** [z.boolean()] *)
Definition boolean : ZodType :=
  {| parse := fun v =>
       match v with
       | VBool _ => Ok v
       | _ => Throw (ZodError [invalid_type "boolean" v])
       end |}.

(** The fields of an object schema run over the properties read by
    [get]: the parsed properties and the issues, field by field. *)
Fixpoint parse_fields (fields : list (string * ZodType))
  (get : string -> JsValue) : list (string * JsValue) * list z.ZodIssue :=
  match fields with
  | [] => ([], [])
  | (k, t) :: rest =>
      let (out, issues) := parse_fields rest get in
      match parse t (get k) with
      | Ok v => ((k, v) :: out, issues)
      | Throw (ZodError found) => (out, ((at_key k <$> found) ++ issues)%list)
      | Throw _ => (out, issues)
      end
  end.

(** [z.object({ k1: t1, ... })]: unknown keys are stripped; a [FormData]
    instance is an object none of whose fields is set. *)
Definition object (fields : list (string * ZodType)) : ZodObject :=
  {| as_type :=
       {| parse := fun v =>
            let run get :=
              match parse_fields fields get with
              | (out, []) => Ok (VObject out)
              | (_, issues) => Throw (ZodError issues)
              end in
            match v with
            | VObject props => run (fun k => obj_get k props)
            | VFormData _ => run (fun _ => VUndefined)
            | _ => Throw (ZodError [invalid_type "object" v])
            end |};
     shape := Some (list_to_map fields) |}.

(** [base.refine(check, { message, path })] on an object schema whose
    own validation passed. *)
Definition refine (base : ZodObject) (check : JsValue -> bool)
  (message : string) (path : list z.PathSeg) : ZodObject :=
  {| as_type :=
       {| parse := fun v =>
            match parse base v with
            | Ok out =>
                if check out then Ok out
                else Throw (ZodError [{| z.path := path;
                                         z.message := message;
                                         z.code := "custom" |}])
            | Throw e => Throw e
            end |};
     shape := shape base |}.

(** The schema of the hook's tests:
    [z.object({ name: z.string().min(1, "Name is required") })]. *)
Definition nameSchema : ZodObject :=
  object [("name", string_min 1 "Name is required")].

(** [z.object({ name: z.string().min(1, { message: "" }) })]: the same
    constraint, reported with an empty message. *)
Definition quietSchema : ZodObject :=
  object [("name", string_min 1 "")].

(** [z.object({ agree: z.boolean() })] *)
Definition consentSchema : ZodObject :=
  object [("agree", boolean)].

(** [nameSchema.refine(() => false, { message: "Rejected", path: ["form"] })] *)
Definition rejectingSchema : ZodObject :=
  refine nameSchema (fun _ => false) "Rejected" [z.Key "form"].

(** A handler that fulfils with the data it was given:
    [async (data) => data]. *)
Definition echo : JsValue -> Settled := fun data => Ok data.

(** A handler that validates further and fails:
    [async () => { throw new z.ZodError([...]) }]. *)
Definition picky : JsValue -> Settled :=
  fun _ => Throw (ZodError [issue "Name already taken" "custom"]).

Definition quiet (A : Type) : A -> option JsError := fun _ => None.

End samples.

(** ** Sample hooks *)

(** A hook over the schema of the tests, its action built by
    [createServerAction] around a handler that fulfils, with both callbacks
    given. *)
Definition nameForm : ActionizeInput :=
  {| schema := samples.nameSchema;
     action := fun prevState formData =>
       (run_action samples.nameSchema samples.echo prevState formData).1;
     initialData := VObject [("name", VStr "")];
     onSuccess := Some (samples.quiet JsValue);
     onError := Some (samples.quiet JsError) |}.

(** The hook over [quietSchema], with no callback. *)
Definition quietForm : ActionizeInput :=
  {| schema := samples.quietSchema;
     action := fun _ _ => Ok VUndefined;
     initialData := VObject [("name", VStr "")];
     onSuccess := None;
     onError := None |}.

(** The hook over [consentSchema], with both callbacks. *)
Definition consentForm : ActionizeInput :=
  {| schema := samples.consentSchema;
     action := fun _ _ => Ok VUndefined;
     initialData := VObject [("agree", VBool false)];
     onSuccess := Some (samples.quiet JsValue);
     onError := Some (samples.quiet JsError) |}.

(** A hook whose schema also reports an issue outside its shape. *)
Definition rejectingForm : ActionizeInput :=
  {| schema := samples.rejectingSchema;
     action := fun _ _ => Ok VUndefined;
     initialData := VObject [("name", VStr "")];
     onSuccess := None;
     onError := None |}.

(** ** Reading a run *)

(** [value[k]] on a value: [undefined] unless it is a plain object with
    that property. *)
Definition property (k : string) (value : JsValue) : JsValue :=
  match value with
  | VObject props => obj_get k props
  | _ => VUndefined
  end.

(** The arguments of the calls made to [action], call after call. *)
Definition action_calls (made : list Event) : list (JsValue * FormData) :=
  omap (fun ev =>
          match ev with
          | ActionCall prevState formData => Some (prevState, formData)
          | _ => None
          end) made.

(** The [FormData] a step submits to the action, when the step is a
    submission whose validation passes. *)
Definition accepted (input : ActionizeInput) (s : Step) : option FormData :=
  match s with
  | DoFormAction formDataObj =>
      match parse (schema input) (fromEntries formDataObj) with
      | Ok _ => Some formDataObj
      | Throw _ => None
      end
  | DoExecuteAction data =>
      match parse (schema input) (dataToSubmit data) with
      | Ok _ => Some (submitted data)
      | Throw _ => None
      end
  | _ => None
  end.

(** The value a step types into the field [name]. *)
Definition typed (name : string) (s : Step) : option string :=
  match s with
  | DoChange changed e =>
      if decide (changed = name) then Some (target_value e) else None
  | _ => None
  end.

(** The field a step blurs. *)
Definition blurred (s : Step) : option string :=
  match s with
  | DoBlur name _ => Some name
  | _ => None
  end.

(** Whether a step is a native form submission. *)
Definition is_formAction (s : Step) : bool :=
  match s with
  | DoFormAction _ => true
  | _ => false
  end.

(** ** More sample schemas and hooks *)

(** [nameSchema.refine(() => false, { message: "Rejected" })]: the issue of
    the refinement has the empty path. *)
Definition formLevelSchema : ZodObject :=
  samples.refine samples.nameSchema (fun _ => false) "Rejected" [].

(** An object schema with a refinement that throws something else than a
    [ZodError]: [nameSchema.refine(() => { throw new Error("boom") })]. *)
Definition throwingSchema : ZodObject :=
  {| as_type := {| parse := fun _ => Throw (Error "boom") |};
     shape := Some {["name" := {| parse := fun _ => Throw (Error "boom") |}]} |}.

Definition formLevelForm : ActionizeInput :=
  {| schema := formLevelSchema;
     action := fun _ _ => Ok VUndefined;
     initialData := VObject [("name", VStr "")];
     onSuccess := Some (samples.quiet JsValue);
     onError := Some (samples.quiet JsError) |}.

Definition throwingForm : ActionizeInput :=
  {| schema := throwingSchema;
     action := fun _ _ => Ok VUndefined;
     initialData := VObject [("name", VStr "")];
     onSuccess := Some (samples.quiet JsValue);
     onError := Some (samples.quiet JsError) |}.

(** The hook over [consentSchema] whose action is built by
    [createServerAction] from the same schema. *)
Definition consentServerForm : ActionizeInput :=
  {| schema := samples.consentSchema;
     action := fun prevState formData =>
       (run_action samples.consentSchema samples.echo prevState formData).1;
     initialData := VObject [("agree", VBool false)];
     onSuccess := Some (samples.quiet JsValue);
     onError := Some (samples.quiet JsError) |}.

(** The hook over [nameSchema] whose [onSuccess] throws and whose [onError]
    returns. *)
Definition clumsyForm : ActionizeInput :=
  {| schema := samples.nameSchema;
     action := fun _ formData => Ok (fromEntries formData);
     initialData := VObject [("name", VStr "")];
     onSuccess := Some (fun _ => Some (Error "render failed"));
     onError := Some (samples.quiet JsError) |}.

(** The same hook with an [onError] that throws as well. *)
Definition brittleForm : ActionizeInput :=
  {| schema := samples.nameSchema;
     action := fun _ formData => Ok (fromEntries formData);
     initialData := VObject [("name", VStr "")];
     onSuccess := None;
     onError := Some (fun _ => Some (Error "toast failed")) |}.

(** [base.superRefine((data, ctx) => { ... ctx.addIssue(...) ... })] on an
    object schema whose own validation passed: the issues the callback adds
    are reported, each with the path the callback gave it. *)
Definition superRefine (base : ZodObject)
  (added : JsValue -> list z.ZodIssue) : ZodObject :=
  {| as_type :=
       {| parse := fun v =>
            match parse base v with
            | Ok out =>
                match added out with
                | [] => Ok out
                | issues => Throw (ZodError issues)
                end
            | Throw e => Throw e
            end |};
     shape := shape base |}.

(** [z.object({ name: z.string().min(1, "Name is required"),
                email: z.string().min(1, "Email is required") })] *)
Definition signupSchema : ZodObject :=
  samples.object [("name", samples.string_min 1 "Name is required");
                  ("email", samples.string_min 1 "Email is required")].

(** The issues the refinement of [auditedSchema] adds: two under "name", one
    under a nested path, one with the empty path, one under the empty name
    and one under an array index. *)
Definition auditIssues : list z.ZodIssue :=
  [ {| z.path := [z.Key "name"]; z.message := "Too common";
       z.code := "custom" |};
    {| z.path := [z.Key "address"; z.Key "city"];
       z.message := "City is required"; z.code := "custom" |};
    {| z.path := []; z.message := "Form rejected"; z.code := "custom" |};
    {| z.path := [z.Key ""]; z.message := "Unnamed"; z.code := "custom" |};
    {| z.path := [z.Key "name"; z.Index 2]; z.message := "Reserved name";
       z.code := "reserved" |};
    {| z.path := [z.Index 0; z.Key "name"];
       z.message := "First row is empty"; z.code := "custom" |} ].

(** [nameSchema.superRefine(...)] with a callback that adds [auditIssues]. *)
Definition auditedSchema : ZodObject :=
  superRefine samples.nameSchema (fun _ => auditIssues).

Definition auditedForm : ActionizeInput :=
  {| schema := auditedSchema;
     action := fun _ _ => Ok VUndefined;
     initialData := VObject [("name", VStr "")];
     onSuccess := Some (samples.quiet JsValue);
     onError := Some (samples.quiet JsError) |}.

(** * Properties *)

(** ** createServerAction *)

Section createServerAction_facts.

Context (schema : ZodType) (handler : JsValue -> Settled).

(** The action on a payload the schema accepts: the handler is called
    once, with the parsed value, and whatever it settles to goes through
    the [catch] clause. *)
Lemma createServerAction_parsed prevState formData parsedData calls :
  parse schema (fromEntries formData) = Ok parsedData ->
  createServerAction schema handler prevState formData calls =
    (match handler parsedData with
     | Ok result => Ok result
     | Throw (ZodError issues) =>
         Throw (Error (join ", " (z.message <$> issues)))
     | Throw e => Throw e
     end, (calls ++ [HandlerCall parsedData])%list).
Proof.
  intros Hparse.
  unfold createServerAction, try_catch, call_handler, lift, modify, throw.
  unfold mbind, eff_bind. rewrite Hparse.
  destruct (handler parsedData) as [result|[issues|msg|v]]; reflexivity.
Qed.

(** The action on a payload the schema refuses with issues. *)
Lemma createServerAction_refused prevState formData issues calls :
  parse schema (fromEntries formData) = Throw (ZodError issues) ->
  createServerAction schema handler prevState formData calls =
    (Throw (Error (join ", " (z.message <$> issues))), calls).
Proof.
  intros Hparse.
  unfold createServerAction, try_catch, lift, throw.
  unfold mbind, eff_bind. by rewrite Hparse.
Qed.

End createServerAction_facts.

(** [join] puts the separator between consecutive parts, and nowhere
    else. *)
Lemma append_empty (s : string) : s +:+ "" = s.
Proof.
  induction s as [|c s IH]; [done|].
  change (String c (s +:+ "") = String c s). by rewrite IH.
Qed.

Lemma join_cons (sep first : string) (rest : list string) :
  join sep (first :: rest) =
    first +:+ foldr (fun part acc => sep +:+ part +:+ acc) "" rest.
Proof.
  unfold join. revert first.
  induction rest as [|second rest IH]; intros first.
  - symmetry. apply append_empty.
  - change (String.concat sep (first :: second :: rest))
      with (first +:+ sep +:+ String.concat sep (second :: rest)).
    by rewrite IH.
Qed.

(** C5. When the mapping converted from the raw input fails validation, the
    action built by [createServerAction] rejects with an error whose message
    is the issue messages joined by ", " (the message of the first issue,
    then ", " and the message of each further issue in order; empty when
    there is no issue), and the handler is not called. *)
Theorem createServerAction_validation_failure
  (schema : ZodType) (handler : JsValue -> Settled)
  (prevState : JsValue) (formData : FormData) (issues : list z.ZodIssue) :
  parse schema (fromEntries formData) = Throw (ZodError issues) ->
  run_action schema handler prevState formData =
    (Throw (Error (join ", " (z.message <$> issues))), [])
  /\ run_action schema handler prevState formData =
       (Throw (Error
                 match issues with
                 | [] => ""
                 | first :: rest =>
                     z.message first +:+
                       foldr (fun i acc => ", " +:+ z.message i +:+ acc) "" rest
                 end), []).
Proof.
  intros Hparse. unfold run_action.
  rewrite (createServerAction_refused _ _ _ _ issues) by done.
  split; [done|]. f_equal. f_equal.
  destruct issues as [|first rest]; [done|].
  by rewrite fmap_cons, join_cons, foldr_fmap.
Qed.

Lemma createServerAction_validation_failure_witness :
  parse signupSchema (fromEntries [("name", ""); ("email", "")]) =
    Throw (ZodError
             [samples.at_key "name"
                (samples.issue "Name is required" "too_small");
              samples.at_key "email"
                (samples.issue "Email is required" "too_small")])
  /\ run_action signupSchema samples.echo VNull [("name", ""); ("email", "")] =
       (Throw (Error "Name is required, Email is required"), []).
Proof.
  split; [reflexivity|].
  apply (createServerAction_validation_failure signupSchema samples.echo
           VNull [("name", ""); ("email", "")]
           [samples.at_key "name"
              (samples.issue "Name is required" "too_small");
            samples.at_key "email"
              (samples.issue "Email is required" "too_small")]).
  reflexivity.
Defined.

(** C4, as the code has it. On a payload the schema accepts, the handler is
    called once with the parsed value; an error it throws that is not a
    [ZodError] reaches the caller unchanged, and a [ZodError] it throws is
    replaced by an [Error] carrying its issue messages joined by ", ". *)
Theorem createServerAction_handler_error
  (schema : ZodType) (handler : JsValue -> Settled)
  (prevState : JsValue) (formData : FormData)
  (parsedData : JsValue) (e : JsError) :
  parse schema (fromEntries formData) = Ok parsedData ->
  handler parsedData = Throw e ->
  run_action schema handler prevState formData =
    (Throw (match e with
            | ZodError issues => Error (join ", " (z.message <$> issues))
            | _ => e
            end), [HandlerCall parsedData]).
Proof.
  intros Hparse Hthrow. unfold run_action.
  rewrite (createServerAction_parsed _ _ _ _ parsedData) by done.
  rewrite Hthrow. by destruct e.
Qed.

Lemma createServerAction_handler_error_witness :
  run_action samples.nameSchema (fun _ => Throw (Error "database down"))
    VNull [("name", "Alice")] =
    (Throw (Error "database down"), [HandlerCall (VObject [("name", VStr "Alice")])]).
Proof.
  apply (createServerAction_handler_error samples.nameSchema
           (fun _ => Throw (Error "database down")) VNull [("name", "Alice")]
           (VObject [("name", VStr "Alice")]) (Error "database down"));
    reflexivity.
Defined.

(** C4 as stated fails: a handler that rejects with a [ZodError] of its own
    is not seen to reject with that error. *)
Lemma createServerAction_handler_error_wrapped :
  let rejection := ZodError [samples.issue "Name already taken" "custom"] in
  parse samples.nameSchema (fromEntries [("name", "Alice")]) =
    Ok (VObject [("name", VStr "Alice")])
  /\ samples.picky (VObject [("name", VStr "Alice")]) = Throw rejection
  /\ (run_action samples.nameSchema samples.picky VNull [("name", "Alice")]).1
       = Throw (Error "Name already taken")
  /\ (run_action samples.nameSchema samples.picky VNull [("name", "Alice")]).1
       <> Throw rejection.
Proof. repeat split; [reflexivity..|discriminate]. Qed.

(** ** useActionize: what each operation does to the cells *)

Ltac eff_unfold :=
  unfold validateField, enhancedFormAction, executeAction, continuation,
    transition, call_onSuccess, call_onError, settle, startTransition,
    record, setErrors, setFormData, setTouchedFields, try_catch, lift,
    modify, throw;
  unfold mbind, mret, eff_bind, eff_ret.

Section useActionize_facts.

Context (input : ActionizeInput).

Lemma validateField_absent name value st :
  fieldSchema (schema input) name = None ->
  validateField input name value st = (Ok tt, st).
Proof. intros Hno. eff_unfold. by rewrite Hno. Qed.

Lemma validateField_passes name sub value parsed st :
  fieldSchema (schema input) name = Some sub ->
  parse sub value = Ok parsed ->
  validateField input name value st =
    (Ok tt, with_errors (delete name) st).
Proof. intros Hsub Hparse. eff_unfold. by rewrite Hsub, Hparse. Qed.

Lemma validateField_fails name sub value issues st :
  fieldSchema (schema input) name = Some sub ->
  parse sub value = Throw (ZodError issues) ->
  validateField input name value st =
    (Ok tt,
     with_errors
       (insert name
          {| message := or_else (z.message <$> head issues) "Invalid value";
             type := or_else (z.code <$> head issues) "invalid" |}) st).
Proof. intros Hsub Hparse. eff_unfold. by rewrite Hsub, Hparse. Qed.

(** Single-field validation never throws, and touches the errors cell at
    [name] only. *)
Lemma validateField_returns name value st :
  (validateField input name value st).1 = Ok tt.
Proof.
  eff_unfold. destruct (fieldSchema _ _) as [sub|]; [|done].
  by destruct (parse sub value) as [?|[?|?|?]].
Qed.

Lemma validateField_frame name value st :
  let st' := (validateField input name value st).2 in
  formData st' = formData st /\ touchedFields st' = touchedFields st
  /\ transitions st' = transitions st /\ calls st' = calls st
  /\ forall other, other ≠ name -> errors st' !! other = errors st !! other.
Proof.
  eff_unfold. destruct (fieldSchema _ _) as [sub|]; [|done].
  destruct (parse sub value) as [?|[?|?|?]]; simpl; repeat split; try done.
  - intros other Hne. by rewrite lookup_delete_ne.
  - intros other Hne. by rewrite lookup_insert_ne.
Qed.

Lemma validateField_keys name value st :
  dom (errors (validateField input name value st).2)
    ⊆ dom (errors st) ∪ fieldNames (schema input).
Proof.
  eff_unfold. unfold fieldSchema, fieldNames.
  destruct (shape (schema input)) as [fields|]; simpl; [|set_solver].
  destruct (fields !! name) as [sub|] eqn:Hsub; [|set_solver].
  assert (Hin : name ∈ dom fields) by (apply elem_of_dom; eauto).
  destruct (parse sub value) as [?|[?|?|?]]; simpl.
  - rewrite dom_delete_L. set_solver.
  - rewrite dom_insert_L. set_solver.
  - set_solver.
  - set_solver.
Qed.

End useActionize_facts.

(** C10. For a field name with no sub-validator in the schema's shape,
    single-field validation changes nothing, and so the [onChange] and
    [onBlur] handlers of [register] leave the errors cell as it was,
    whatever the value. *)
Theorem validateField_without_subvalidator
  (input : ActionizeInput) (name : string) (value : JsValue)
  (rendered st : HookState) (e : InputEvent) :
  fieldSchema (schema input) name = None ->
  validateField input name value st = (Ok tt, st)
  /\ errors (onChange (register input rendered name) e st).2 = errors st
  /\ errors (onBlur (register input rendered name) e st).2 = errors st.
Proof.
  intros Hno. split; [by apply validateField_absent|].
  split; simpl; unfold setFormData, setTouchedFields, modify;
    unfold mbind, eff_bind.
  - destruct (decide _); [|done]. by rewrite validateField_absent.
  - by rewrite validateField_absent.
Qed.

Lemma validateField_without_subvalidator_witness :
  fieldSchema (schema nameForm) "email" = None
  /\ errors (onBlur (register nameForm initialState "email")
               {| target_value := "not an address" |} initialState).2
     = errors initialState.
Proof.
  split; [reflexivity|].
  apply (validateField_without_subvalidator nameForm "email" VUndefined
           initialState initialState {| target_value := "not an address" |}).
  reflexivity.
Defined.

(** C7, as the code has it. Where the field has a sub-validator,
    single-field validation on failure stores as that field's error the
    first reported issue's message and kind, each replaced by a default
    ("Invalid value", "invalid") when it is empty or when no issue is
    reported; on success it removes the field's error; in every case the
    error entries of the other fields are unchanged, and validating the same
    field again with the same value gives the same state. *)
Theorem validateField_policy
  (input : ActionizeInput) (name : string) (sub : ZodType) (value : JsValue)
  (st : HookState) :
  fieldSchema (schema input) name = Some sub ->
  let st' := (validateField input name value st).2 in
  (forall first rest,
      parse sub value = Throw (ZodError (first :: rest)) ->
      errors st' !! name =
        Some {| message := if decide (z.message first = "")
                           then "Invalid value" else z.message first;
                type := if decide (z.code first = "")
                        then "invalid" else z.code first |})
  /\ (parse sub value = Throw (ZodError []) ->
      errors st' !! name =
        Some {| message := "Invalid value"; type := "invalid" |})
  /\ (forall parsed, parse sub value = Ok parsed -> errors st' !! name = None)
  /\ (forall other, other ≠ name -> errors st' !! other = errors st !! other)
  /\ (validateField input name value st').2 = st'.
Proof.
  intros Hsub st'. subst st'. repeat split.
  - intros first rest Hparse.
    rewrite (validateField_fails input name sub value _ st Hsub Hparse).
    simpl. by rewrite lookup_insert_eq.
  - intros Hparse.
    rewrite (validateField_fails input name sub value _ st Hsub Hparse).
    simpl. by rewrite lookup_insert_eq.
  - intros parsed Hparse.
    rewrite (validateField_passes input name sub value parsed st Hsub Hparse).
    simpl. by rewrite lookup_delete_eq.
  - apply validateField_frame.
  - destruct (parse sub value) as [parsed|[issues|msg|v]] eqn:Hparse.
    + rewrite !(validateField_passes input name sub value parsed) by done.
      unfold with_errors; simpl. f_equal. apply delete_delete_eq.
    + rewrite !(validateField_fails input name sub value issues) by done.
      unfold with_errors; simpl. f_equal. apply insert_insert_eq.
    + eff_unfold. by rewrite Hsub, Hparse.
    + eff_unfold. by rewrite Hsub, Hparse.
Qed.

Lemma validateField_policy_witness :
  fieldSchema (schema nameForm) "name"
    = Some (samples.string_min 1 "Name is required")
  /\ errors (validateField nameForm "name" (VStr "") initialState).2 !! "name"
     = Some {| message := "Name is required"; type := "too_small" |}.
Proof.
  split; [reflexivity|].
  destruct (validateField_policy nameForm "name"
              (samples.string_min 1 "Name is required") (VStr "") initialState
              eq_refl) as [Hfirst _].
  exact (Hfirst (samples.issue "Name is required" "too_small") [] eq_refl).
Defined.

(** C7 as stated fails: the first issue that the field of [quietSchema]
    reports on the empty string has the empty message, and the error stored
    for the field carries "Invalid value" instead. *)
Lemma validateField_first_message_replaced :
  fieldSchema (schema quietForm) "name" = Some (samples.string_min 1 "")
  /\ parse (samples.string_min 1 "") (VStr "")
     = Throw (ZodError [samples.issue "" "too_small"])
  /\ errors (validateField quietForm "name" (VStr "") initialState).2 !! "name"
     = Some {| message := "Invalid value"; type := "too_small" |}
  /\ errors (validateField quietForm "name" (VStr "") initialState).2 !! "name"
     <> Some {| message := z.message (samples.issue "" "too_small");
                type := z.code (samples.issue "" "too_small") |}.
Proof.
  assert (Hstored :
    errors (validateField quietForm "name" (VStr "") initialState).2 !! "name"
    = Some {| message := "Invalid value"; type := "too_small" |}).
  { rewrite (validateField_fails quietForm "name" (samples.string_min 1 "")
               (VStr "") [samples.issue "" "too_small"]) by reflexivity.
    simpl. by rewrite lookup_insert_eq. }
  split; [reflexivity|]. split; [reflexivity|]. split; [exact Hstored|].
  rewrite Hstored. discriminate.
Qed.

(** ** useActionize: submissions *)

Section fieldErrorsOf_facts.

Lemma fieldErrorsOf_snoc issues issue :
  fieldErrorsOf (issues ++ [issue]) =
    match fieldName issue with
    | Some fieldName =>
        <[fieldName := asFieldError issue]> (fieldErrorsOf issues)
    | None => fieldErrorsOf issues
    end.
Proof. unfold fieldErrorsOf. by rewrite foldl_app. Qed.

(** The entry of a field is the last issue reported under its name. *)
Lemma fieldErrorsOf_lookup issues k :
  fieldErrorsOf issues !! k =
    asFieldError <$> last (filter (fun i => fieldName i = Some k) issues).
Proof.
  induction issues as [|issue issues IH] using rev_ind; [done|].
  rewrite fieldErrorsOf_snoc, filter_app.
  rewrite filter_cons, filter_nil.
  destruct (fieldName issue) as [k'|] eqn:Hname.
  - destruct (decide (k' = k)) as [->|Hne].
    + rewrite lookup_insert_eq, decide_True by done.
      by rewrite last_snoc.
    + rewrite lookup_insert_ne, decide_False by congruence.
      by rewrite app_nil_r.
  - rewrite decide_False by congruence. by rewrite app_nil_r.
Qed.

Lemma fieldErrorsOf_dom issues k :
  k ∈ dom (fieldErrorsOf issues) <->
  exists issue, issue ∈ issues /\ fieldName issue = Some k.
Proof.
  rewrite elem_of_dom, fieldErrorsOf_lookup, fmap_is_Some.
  split.
  - intros [issue Hlast]. exists issue.
    apply last_Some_elem_of in Hlast.
    by apply list_elem_of_filter in Hlast as [? ?].
  - intros (issue & Hin & Hname).
    assert (Hfil : issue ∈ filter (fun i => fieldName i = Some k) issues)
      by (by apply list_elem_of_filter).
    destruct (filter _ issues) as [|x l] using rev_ind.
    + by apply not_elem_of_nil in Hfil.
    + rewrite last_snoc. eauto.
Qed.

End fieldErrorsOf_facts.

Section submission_facts.

Context (input : ActionizeInput).

Lemma call_onError_run error st :
  call_onError input error st =
    match onError input with
    | Some callback =>
        (match callback error with Some thrown => Throw thrown | None => Ok tt end,
         with_calls (fun made => made ++ [OnError error])%list st)
    | None => (Ok tt, st)
    end.
Proof.
  eff_unfold. destruct (onError input) as [callback|]; [|done].
  by destruct (callback error).
Qed.

Lemma call_onSuccess_run result st :
  call_onSuccess input result st =
    match onSuccess input with
    | Some callback =>
        (match callback result with Some thrown => Throw thrown | None => Ok tt end,
         with_calls (fun made => made ++ [OnSuccess result])%list st)
    | None => (Ok tt, st)
    end.
Proof.
  eff_unfold. destruct (onSuccess input) as [callback|]; [|done].
  by destruct (callback result).
Qed.

Lemma continuation_cells awaited st :
  (continuation input awaited st).2 =
    with_calls (fun made => made ++ settled_calls input awaited)%list st.
Proof.
  unfold continuation, try_catch, lift. unfold mbind, eff_bind.
  destruct st as [fd errs touched inflight made].
  destruct awaited as [result|error]; simpl.
  - rewrite call_onSuccess_run.
    destruct (onSuccess input) as [callback|]; simpl.
    + destruct (callback result) as [thrown|]; simpl; [|done].
      rewrite call_onError_run.
      destruct (onError input); simpl; unfold with_calls; simpl.
      * by rewrite <- app_assoc.
      * done.
    + unfold with_calls; simpl. by rewrite app_nil_r.
  - rewrite call_onError_run.
    destruct (onError input); simpl; [done|].
    unfold with_calls; simpl. by rewrite app_nil_r.
Qed.

Lemma settle_cells i awaited st :
  transitions st !! i = Some awaited ->
  (settle input i st).2 =
    with_calls (fun made => made ++ settled_calls input awaited)%list
      (with_transitions (delete i) st).
Proof.
  intros Hi. unfold settle. rewrite Hi. apply continuation_cells.
Qed.

Lemma settle_idle i st :
  transitions st !! i = None -> (settle input i st).2 = st.
Proof. intros Hi. unfold settle. by rewrite Hi. Qed.

Lemma enhancedFormAction_refused formDataObj issues st :
  parse (schema input) (fromEntries formDataObj) = Throw (ZodError issues) ->
  enhancedFormAction input formDataObj st =
    (Ok tt, with_errors (fun _ => fieldErrorsOf issues) st).
Proof. intros Hparse. eff_unfold. by rewrite Hparse. Qed.

Lemma enhancedFormAction_accepted formDataObj parsed st :
  parse (schema input) (fromEntries formDataObj) = Ok parsed ->
  enhancedFormAction input formDataObj st =
    (Ok tt,
     with_transitions
       (fun inflight =>
          inflight ++ [action input (state input) formDataObj])%list
       (with_calls
          (fun made => made ++ [ActionCall (state input) formDataObj])%list
          (with_errors (fun _ => ∅) st))).
Proof. intros Hparse. eff_unfold. by rewrite Hparse. Qed.

Lemma enhancedFormAction_threw formDataObj e st :
  parse (schema input) (fromEntries formDataObj) = Throw e ->
  (forall issues, e ≠ ZodError issues) ->
  enhancedFormAction input formDataObj st = (Ok tt, st).
Proof.
  intros Hparse Hno. eff_unfold. rewrite Hparse.
  destruct e; [by edestruct Hno|done..].
Qed.

Lemma executeAction_refused data issues st :
  parse (schema input) (dataToSubmit data) = Throw (ZodError issues) ->
  executeAction input data st =
    call_onError input (Error (join ", " (z.message <$> issues))) st.
Proof.
  intros Hparse. eff_unfold. by rewrite Hparse.
Qed.

Lemma executeAction_accepted data parsed st :
  parse (schema input) (dataToSubmit data) = Ok parsed ->
  executeAction input data st =
    (Ok tt,
     with_transitions
       (fun inflight =>
          inflight ++ [action input (state input) (submitted data)])%list
       (with_calls
          (fun made =>
             made ++ [ActionCall (state input) (submitted data)])%list
          st)).
Proof.
  intros Hparse. eff_unfold. by rewrite Hparse.
Qed.

Lemma executeAction_threw data e st :
  parse (schema input) (dataToSubmit data) = Throw e ->
  (forall issues, e ≠ ZodError issues) ->
  executeAction input data st = (Ok tt, st).
Proof.
  intros Hparse Hno. eff_unfold. rewrite Hparse.
  destruct e; [by edestruct Hno|done..].
Qed.

End submission_facts.

(** The entry of a name in the field errors of a list of issues, read off
    the issues: the last issue whose path starts with that name, and nothing
    under the empty name. *)
Lemma fieldErrorsOf_entry issues k :
  fieldErrorsOf issues !! k =
    if decide (k = "") then None
    else last (omap (fun i =>
                 match z.path i with
                 | z.Key name :: _ =>
                     if decide (name = k)
                     then Some {| message := z.message i; type := z.code i |}
                     else None
                 | z.Index n :: _ =>
                     if decide (pretty n = k)
                     then Some {| message := z.message i; type := z.code i |}
                     else None
                 | [] => None
                 end) issues).
Proof.
  induction issues as [|issue issues IH] using rev_ind.
  { by destruct (decide (k = "")). }
  rewrite fieldErrorsOf_snoc, omap_app. unfold fieldName, asFieldError.
  simpl. destruct (z.path issue) as [|[name|n] deeper]; simpl.
  - by rewrite app_nil_r.
  - destruct (decide (name = "")) as [->|Hnamed].
    + rewrite IH. destruct (decide (k = "")) as [->|Hk]; [done|].
      rewrite decide_False by done. by rewrite app_nil_r.
    + destruct (decide (name = k)) as [->|Hother].
      * rewrite lookup_insert_eq, decide_False by done. by rewrite last_snoc.
      * rewrite lookup_insert_ne by done. by rewrite app_nil_r.
  - destruct (decide (pretty n = "")) as [Hempty|Hnamed].
    + rewrite IH. destruct (decide (k = "")) as [->|Hk]; [done|].
      rewrite decide_False by congruence. by rewrite app_nil_r.
    + destruct (decide (pretty n = k)) as [<-|Hother].
      * rewrite lookup_insert_eq, decide_False by done. by rewrite last_snoc.
      * rewrite lookup_insert_ne by done. by rewrite app_nil_r.
Qed.

(** C2. [formAction] converts the raw input to a mapping and validates the
    whole mapping.  When validation fails, the errors cell becomes the field
    errors of the issues: under each non-empty name, the message and kind of
    the last issue whose path starts with that name (an index read as its
    decimal string); issues with the empty path or the empty name are
    dropped, and deeper path segments play no part.  No transition starts
    and no callback is called.  When validation succeeds, the errors cell is
    emptied and a transition calls the action with the current state and
    the raw input; when that settles, [onSuccess], if given, receives the
    result of a fulfilment, [onError], if given, receives the error of a
    rejection (or what [onSuccess] threw), and nothing else is called. *)
Theorem formAction_behaviour
  (input : ActionizeInput) (formDataObj : FormData) (st : HookState) :
  let outcome := parse (schema input) (fromEntries formDataObj) in
  let st1 := (enhancedFormAction input formDataObj st).2 in
  let st2 := (settle input (length (transitions st)) st1).2 in
  (enhancedFormAction input formDataObj st).1 = Ok tt
  /\ (forall issues, outcome = Throw (ZodError issues) ->
        (forall k, errors st1 !! k =
           if decide (k = "") then None
           else last (omap (fun i =>
                  match z.path i with
                  | z.Key name :: _ =>
                      if decide (name = k)
                      then Some {| message := z.message i;
                                   type := z.code i |}
                      else None
                  | z.Index n :: _ =>
                      if decide (pretty n = k)
                      then Some {| message := z.message i;
                                   type := z.code i |}
                      else None
                  | [] => None
                  end) issues))
        /\ transitions st1 = transitions st
        /\ calls st1 = calls st)
  /\ (forall parsed, outcome = Ok parsed ->
        errors st1 = ∅
        /\ transitions st1 =
             (transitions st ++ [action input (state input) formDataObj])%list
        /\ calls st1 =
             (calls st ++ [ActionCall (initialData input) formDataObj])%list
        /\ errors st2 = ∅
        /\ transitions st2 = transitions st
        /\ (forall result,
              action input (state input) formDataObj = Ok result ->
              calls st2 =
                calls st1 ++
                  match onSuccess input with
                  | Some callback =>
                      OnSuccess result ::
                        match callback result, onError input with
                        | Some thrown, Some _ => [OnError thrown]
                        | _, _ => []
                        end
                  | None => []
                  end)
        /\ (forall error,
              action input (state input) formDataObj = Throw error ->
              calls st2 =
                calls st1 ++
                  match onError input with
                  | Some _ => [OnError error]
                  | None => []
                  end)).
Proof.
  intros outcome st1 st2. subst outcome st1 st2. split.
  { eff_unfold. destruct (parse _ _) as [?|[?|?|?]]; done. }
  split.
  - intros issues Hparse.
    rewrite (enhancedFormAction_refused input _ issues) by done. simpl.
    split; [|done]. intros k. apply fieldErrorsOf_entry.
  - intros parsed Hparse.
    rewrite (enhancedFormAction_accepted input _ parsed) by done. simpl.
    do 3 (split; [done|]).
    rewrite (settle_cells input _ (action input (state input) formDataObj))
      by (simpl; by rewrite list_lookup_middle).
    simpl. split; [done|]. split.
    { rewrite delete_middle. by rewrite app_nil_r. }
    split.
    + intros result Hres. by rewrite Hres.
    + intros error Herr. by rewrite Herr.
Qed.

Lemma formAction_behaviour_witness :
  let st0 := step auditedForm initialState
               (DoBlur "name" {| target_value := "" |}) in
  let st1 := (enhancedFormAction auditedForm [("name", "Alice")] st0).2 in
  let st2 := (settle brittleForm 0
                (enhancedFormAction brittleForm [("name", "Alice")]
                   initialState).2).2 in
  (errors st0 !! "name"
     = Some {| message := "Name is required"; type := "too_small" |}
   /\ errors st1 !! "name"
      = Some {| message := "Reserved name"; type := "reserved" |}
   /\ errors st1 !! "address"
      = Some {| message := "City is required"; type := "custom" |}
   /\ errors st1 !! "city" = None
   /\ errors st1 !! "0"
      = Some {| message := "First row is empty"; type := "custom" |}
   /\ errors st1 !! "2" = None
   /\ errors st1 !! "" = None
   /\ transitions st1 = []
   /\ calls st1 = [])
  /\ calls st2 = [ActionCall (initialData brittleForm) [("name", "Alice")]].
Proof.
  intros st0 st1 st2.
  destruct (formAction_behaviour auditedForm [("name", "Alice")] st0)
    as (_ & Hrefused & _).
  destruct (formAction_behaviour brittleForm [("name", "Alice")] initialState)
    as (_ & _ & Haccepted).
  split.
  - destruct (Hrefused auditIssues eq_refl) as (Hentry & Hinflight & Hmade).
    split; [vm_compute; reflexivity|].
    split; [exact (Hentry "name")|]. split; [exact (Hentry "address")|].
    split; [exact (Hentry "city")|]. split; [exact (Hentry "0")|].
    split; [exact (Hentry "2")|]. split; [exact (Hentry "")|].
    split; [exact Hinflight|exact Hmade].
  - destruct (Haccepted _ eq_refl) as (_ & _ & _ & _ & _ & Hfulfilled & _).
    exact (Hfulfilled _ eq_refl).
Defined.

(** C3, as the code has it. [executeAction] builds a [FormData] from the
    entries of [data], every value stringified (an empty one without
    [data]), but validates [data] itself, as given, and the empty [FormData]
    only when no [data] is given.  When that validation fails, [onError], if
    given, receives one [Error] whose message joins the issue messages by
    ", "; no transition starts and the errors cell is unchanged.  When it
    passes, the action receives the stringified [FormData]. *)
Theorem executeAction_validation
  (input : ActionizeInput) (data : option (list (string * JsValue)))
  (st : HookState) :
  let outcome := parse (schema input) (dataToSubmit data) in
  let st1 := (executeAction input data st).2 in
  (forall props, data = Some props ->
     dataToSubmit data = VObject props
     /\ (submitted data).*1 = props.*1
     /\ (submitted data).*2 = js_String <$> props.*2)
  /\ (data = None -> dataToSubmit data = VFormData [] /\ submitted data = [])
  /\ (forall issues, outcome = Throw (ZodError issues) ->
        errors st1 = errors st
        /\ transitions st1 = transitions st
        /\ calls st1 =
             (calls st ++
                match onError input with
                | Some _ => [OnError (Error (join ", " (z.message <$> issues)))]
                | None => []
                end)%list)
  /\ (forall parsed, outcome = Ok parsed ->
        errors st1 = errors st
        /\ transitions st1 =
             (transitions st ++
                [action input (state input) (submitted data)])%list
        /\ calls st1 =
             (calls st ++ [ActionCall (state input) (submitted data)])%list).
Proof.
  intros outcome st1. subst outcome st1.
  split; [|split; [|split]].
  - intros props ->. simpl. unfold appendEntries.
    rewrite <- !list_fmap_compose. split; [done|].
    split; by apply list_fmap_ext.
  - by intros ->.
  - intros issues Hparse.
    rewrite (executeAction_refused input data issues) by done.
    rewrite call_onError_run.
    destruct (onError input); simpl; [done|by rewrite app_nil_r].
  - intros parsed Hparse.
    by rewrite (executeAction_accepted input data parsed).
Qed.

Lemma executeAction_validation_witness :
  calls (executeAction nameForm (Some [("name", VStr "")]) initialState).2
    = [OnError (Error "Name is required")]
  /\ transitions
       (executeAction nameForm (Some [("name", VStr "")]) initialState).2 = []
  /\ calls (executeAction consentForm (Some [("agree", VBool true)])
              initialState).2
     = [ActionCall (state consentForm) [("agree", "true")]].
Proof.
  destruct (executeAction_validation nameForm (Some [("name", VStr "")])
              initialState) as (_ & _ & Hrefused & _).
  destruct (executeAction_validation consentForm
              (Some [("agree", VBool true)]) initialState)
    as (_ & _ & _ & Haccepted).
  destruct (Hrefused _ eq_refl) as (_ & Hinflight & Hmade).
  destruct (Haccepted _ eq_refl) as (_ & _ & Hcall).
  split; [exact Hmade|]. split; [exact Hinflight|exact Hcall].
Defined.

(** C3 as stated fails: [{ agree: true }] passes [consentSchema], its
    stringified entries do not, and [executeAction] starts the transition
    without calling [onError]. *)
Lemma executeAction_validates_data_as_given :
  let props := [("agree", VBool true)] in
  let st1 := (executeAction consentForm (Some props) initialState).2 in
  appendEntries props = [("agree", "true")]
  /\ parse (schema consentForm) (fromEntries (appendEntries props))
     = Throw (ZodError
                [samples.at_key "agree"
                   (samples.issue
                      "Invalid input: expected boolean, received string"
                      "invalid_type")])
  /\ parse (schema consentForm) (VFormData (appendEntries props))
     = Throw (ZodError
                [samples.at_key "agree"
                   (samples.issue
                      "Invalid input: expected boolean, received undefined"
                      "invalid_type")])
  /\ transitions st1 = [Ok VUndefined]
  /\ onError_calls (calls st1) = [].
Proof. repeat split. Qed.

(** C1, as the code has it. When the schema accepts [data] and the action
    fulfils, [executeAction(data)] leaves the errors cell as it was (it
    does not clear it); the pending flag is true from the call until the
    transition settles and then, no other transition being in flight, false;
    and [onSuccess] is called exactly once, with the result of the action. *)
Theorem executeAction_success
  (input : ActionizeInput) (props : list (string * JsValue))
  (parsed result : JsValue) (callback : JsValue -> option JsError)
  (st : HookState) :
  parse (schema input) (VObject props) = Ok parsed ->
  action input (state input) (appendEntries props) = Ok result ->
  onSuccess input = Some callback ->
  let st1 := (executeAction input (Some props) st).2 in
  let st2 := (settle input (length (transitions st)) st1).2 in
  errors st1 = errors st
  /\ isPending st1 = true
  /\ calls st1 =
       (calls st ++ [ActionCall (state input) (appendEntries props)])%list
  /\ errors st2 = errors st
  /\ isPending st2 = isPending st
  /\ (transitions st = [] -> isPending st2 = false)
  /\ onSuccess_calls (calls st2) = (onSuccess_calls (calls st) ++ [result])%list.
Proof.
  intros Hparse Hres Hcb st1 st2. subst st1 st2.
  rewrite (executeAction_accepted input (Some props) parsed) by done.
  simpl. split; [done|]. split.
  { unfold isPending. simpl. apply bool_decide_eq_true.
    by destruct (transitions st). }
  split; [done|].
  rewrite (settle_cells input _ (Ok result))
    by (simpl; rewrite <- Hres; by rewrite list_lookup_middle).
  simpl. split; [done|].
  split; [|split].
  - unfold isPending. simpl. rewrite delete_middle. by rewrite app_nil_r.
  - intros Hnone. unfold isPending. simpl.
    by rewrite delete_middle, app_nil_r, Hnone.
  - unfold onSuccess_calls. rewrite Hcb, !omap_app. simpl.
    rewrite app_nil_r. f_equal.
    by destruct (callback result), (onError input).
Qed.

Lemma executeAction_success_witness :
  let st1 := (executeAction nameForm (Some [("name", VStr "Alice")])
                initialState).2 in
  let st2 := (settle nameForm 0 st1).2 in
  isPending st1 = true
  /\ isPending st2 = false
  /\ onSuccess_calls (calls st2) = [VObject [("name", VStr "Alice")]].
Proof.
  destruct (executeAction_success nameForm [("name", VStr "Alice")]
              (VObject [("name", VStr "Alice")])
              (VObject [("name", VStr "Alice")])
              (samples.quiet JsValue) initialState eq_refl eq_refl eq_refl)
    as (_ & Hpending & _ & _ & _ & Hsettled & Hsuccess).
  split; [exact Hpending|]. split; [exact (Hsettled eq_refl)|exact Hsuccess].
Defined.

(** C1 as stated fails: an error stored by an earlier blur of the empty
    field is still there after [executeAction({name: "Alice"})] has
    succeeded and settled, so the form still counts as invalid. *)
Lemma executeAction_keeps_errors :
  let st0 := step nameForm initialState
               (DoBlur "name" {| target_value := "" |}) in
  let st1 := step nameForm st0
               (DoExecuteAction (Some [("name", VStr "Alice")])) in
  let st2 := step nameForm st1 (DoSettle 0) in
  parse (schema nameForm) (VObject [("name", VStr "Alice")])
    = Ok (VObject [("name", VStr "Alice")])
  /\ errors st0 !! "name"
     = Some {| message := "Name is required"; type := "too_small" |}
  /\ errors st1 !! "name"
     = Some {| message := "Name is required"; type := "too_small" |}
  /\ errors st2 !! "name"
     = Some {| message := "Name is required"; type := "too_small" |}
  /\ errors st2 <> ∅
  /\ onSuccess_calls (calls st2) = [VObject [("name", VStr "Alice")]].
Proof.
  intros st0 st1 st2.
  assert (Hkept : errors st2 !! "name"
    = Some {| message := "Name is required"; type := "too_small" |})
    by (vm_compute; reflexivity).
  split; [reflexivity|]. split; [vm_compute; reflexivity|].
  split; [vm_compute; reflexivity|]. split; [exact Hkept|].
  split; [|reflexivity].
  intros Hempty. rewrite Hempty in Hkept. by rewrite lookup_empty in Hkept.
Qed.

(** ** useActionize: the cells along a run *)

Section run_facts.

Context (input : ActionizeInput).

Lemma run_snoc st steps s :
  run input st (steps ++ [s]) = step input (run input st steps) s.
Proof. unfold run. by rewrite foldl_app. Qed.

Lemma onChange_untouched name e st :
  name ∉ touchedFields st ->
  onChange (register input st name) e st =
    (Ok tt, with_formData (insert name (target_value e)) st).
Proof.
  intros Hfresh. simpl. unfold setFormData, modify.
  unfold mbind, eff_bind. by rewrite decide_False.
Qed.

Lemma onChange_touched name e st :
  name ∈ touchedFields st ->
  onChange (register input st name) e st =
    validateField input name (VStr (target_value e))
      (with_formData (insert name (target_value e)) st).
Proof.
  intros Htouched. simpl. unfold setFormData, modify.
  unfold mbind, eff_bind. by rewrite decide_True.
Qed.

Lemma onBlur_run rendered name e st :
  onBlur (register input rendered name) e st =
    validateField input name (VStr (target_value e))
      (with_touchedFields (fun prev => prev ∪ {[name]}) st).
Proof. done. Qed.

(** The touched set only grows, and only by blurs. *)
Lemma step_touchedFields st s :
  touchedFields (step input st s) =
    match s with
    | DoBlur name _ => touchedFields st ∪ {[name]}
    | _ => touchedFields st
    end.
Proof.
  destruct s as [name e|name e|formDataObj|data|i]; unfold step.
  - destruct (decide (name ∈ touchedFields st)).
    + rewrite onChange_touched by done.
      by destruct (validateField_frame input name (VStr (target_value e))
           (with_formData (insert name (target_value e)) st))
        as (_ & -> & _).
    + by rewrite onChange_untouched.
  - rewrite onBlur_run.
    by destruct (validateField_frame input name (VStr (target_value e))
         (with_touchedFields (fun prev => prev ∪ {[name]}) st))
      as (_ & -> & _).
  - eff_unfold. by destruct (parse _ _) as [?|[?|?|?]].
  - eff_unfold.
    destruct (parse _ _) as [?|[?|?|?]]; simpl; try done.
    destruct (onError input) as [callback|]; simpl; [|done].
    by destruct (callback _).
  - destruct (transitions st !! i) as [awaited|] eqn:Hi.
    + by rewrite (settle_cells input i awaited).
    + by rewrite settle_idle.
Qed.

Lemma run_touchedFields st steps :
  touchedFields st ⊆ touchedFields (run input st steps).
Proof.
  induction steps as [|s steps IH] using rev_ind; [done|].
  rewrite run_snoc, step_touchedFields. destruct s; set_solver.
Qed.

(** What a step does to the errors cell. *)
Lemma step_errors st s :
  match s with
  | DoChange name _ | DoBlur name _ =>
      dom (errors (step input st s))
        ⊆ dom (errors st) ∪ fieldNames (schema input)
  | DoFormAction formDataObj =>
      match parse (schema input) (fromEntries formDataObj) with
      | Ok _ => errors (step input st s) = ∅
      | Throw (ZodError issues) =>
          errors (step input st s) = fieldErrorsOf issues
      | Throw _ => errors (step input st s) = errors st
      end
  | DoExecuteAction _ | DoSettle _ => errors (step input st s) = errors st
  end.
Proof.
  destruct s as [name e|name e|formDataObj|data|i]; unfold step.
  - destruct (decide (name ∈ touchedFields st)).
    + rewrite onChange_touched by done.
      exact (validateField_keys input name _ (with_formData _ st)).
    + rewrite onChange_untouched by done. set_solver.
  - rewrite onBlur_run.
    exact (validateField_keys input name _ (with_touchedFields _ st)).
  - eff_unfold. by destruct (parse _ _) as [?|[?|?|?]].
  - eff_unfold.
    destruct (parse _ _) as [?|[?|?|?]]; simpl; try done.
    destruct (onError input) as [callback|]; simpl; [|done].
    by destruct (callback _).
  - destruct (transitions st !! i) as [awaited|] eqn:Hi.
    + by rewrite (settle_cells input i awaited).
    + by rewrite settle_idle.
Qed.

(** Every key of the errors cell is a field name of the schema, or the
    field name of an issue that the validation of a submitted form
    reported. *)
Lemma run_errors_keys steps k :
  k ∈ dom (errors (run input initialState steps)) ->
  k ∈ fieldNames (schema input)
  \/ exists formDataObj issues issue,
       DoFormAction formDataObj ∈ steps
       /\ parse (schema input) (fromEntries formDataObj)
          = Throw (ZodError issues)
       /\ issue ∈ issues /\ fieldName issue = Some k.
Proof.
  revert k. induction steps as [|s steps IH] using rev_ind; intros k.
  { simpl. set_solver. }
  rewrite run_snoc. pose proof (step_errors (run input initialState steps) s)
    as Hstep.
  assert (Hweaken : k ∈ dom (errors (run input initialState steps)) ->
    k ∈ fieldNames (schema input)
    \/ exists formDataObj issues issue,
         DoFormAction formDataObj ∈ steps ++ [s]
         /\ parse (schema input) (fromEntries formDataObj)
            = Throw (ZodError issues)
         /\ issue ∈ issues /\ fieldName issue = Some k).
  { intros Hk. destruct (IH k Hk) as [?|(fd & issues & issue & ? & ?)];
      [by left|right]. exists fd, issues, issue. set_solver. }
  destruct s as [name e|name e|formDataObj|data|i].
  - intros Hk. apply Hstep in Hk. set_solver.
  - intros Hk. apply Hstep in Hk. set_solver.
  - destruct (parse (schema input) (fromEntries formDataObj))
      as [?|[issues|?|?]] eqn:Hparse; rewrite Hstep.
    + set_solver.
    + intros Hk. apply fieldErrorsOf_dom in Hk as (issue & Hin & Hname).
      right. exists formDataObj, issues, issue. set_solver.
    + done.
    + done.
  - by rewrite Hstep.
  - by rewrite Hstep.
Qed.

End run_facts.

(** C6. On a fresh hook, and in any state where the field is not touched,
    [onChange] only stores the value: no error entry appears for the field,
    whatever the value.  [onBlur] adds the field to the touched set (which
    is unchanged if it was there) and then validates the field.  The field
    stays touched from then on, and [onChange] of a touched field validates
    it. *)
Theorem touched_gating
  (input : ActionizeInput) (name : string) (e : InputEvent) (st : HookState) :
  let changed := step input st (DoChange name e) in
  let blurred := step input st (DoBlur name e) in
  errors (step input initialState (DoChange name e)) !! name = None
  /\ (name ∉ touchedFields st ->
      changed = with_formData (insert name (target_value e)) st
      /\ errors changed = errors st)
  /\ blurred =
       (validateField input name (VStr (target_value e))
          (with_touchedFields (fun prev => prev ∪ {[name]}) st)).2
  /\ touchedFields blurred = touchedFields st ∪ {[name]}
  /\ (name ∈ touchedFields st -> touchedFields blurred = touchedFields st)
  /\ (forall steps e', 
        let later := run input blurred steps in
        name ∈ touchedFields later
        /\ step input later (DoChange name e') =
             (validateField input name (VStr (target_value e'))
                (with_formData (insert name (target_value e')) later)).2)
  /\ (name ∈ touchedFields st ->
      changed =
        (validateField input name (VStr (target_value e))
           (with_formData (insert name (target_value e)) st)).2).
Proof.
  intros changed blurred. subst changed blurred.
  assert (Hblur : name ∈ touchedFields (step input st (DoBlur name e))).
  { rewrite step_touchedFields. set_solver. }
  split.
  { unfold step. rewrite onChange_untouched by set_solver. done. }
  split.
  { intros Hfresh. unfold step. by rewrite onChange_untouched. }
  split; [done|]. split; [apply step_touchedFields|]. split.
  { intros Htouched. rewrite step_touchedFields. set_solver. }
  split.
  - intros steps e' later.
    assert (Hlater : name ∈ touchedFields later).
    { by apply (run_touchedFields input _ steps). }
    split; [done|]. unfold step at 1. by rewrite onChange_touched.
  - intros Htouched. unfold step. by rewrite onChange_touched.
Qed.

Lemma touched_gating_witness :
  let empty := {| target_value := "" |} in
  let changed := step nameForm initialState (DoChange "name" empty) in
  let blurred := step nameForm initialState (DoBlur "name" empty) in
  ("name" ∉ touchedFields initialState)
  /\ errors changed = errors initialState
  /\ errors blurred !! "name"
     = Some {| message := "Name is required"; type := "too_small" |}
  /\ errors (step nameForm blurred (DoChange "name" {| target_value := "A" |}))
       !! "name" = None.
Proof.
  intros empty changed blurred.
  assert (Hfresh : "name" ∉ touchedFields initialState)
    by apply not_elem_of_empty.
  destruct (touched_gating nameForm "name" empty initialState)
    as (_ & Huntouched & _).
  split; [exact Hfresh|]. split; [exact (proj2 (Huntouched Hfresh))|].
  split; vm_compute; reflexivity.
Defined.

(** C9. In every state a run reaches, [buttonDisabled] is
    [isPending || !isValid], and [isValid] is computed from the errors cell
    alone: it holds exactly when that cell has no entry. *)
Theorem buttonDisabled_derived (input : ActionizeInput) (steps : list Step) :
  let st := run input initialState steps in
  buttonDisabled st = isPending st || negb (isValid st)
  /\ isValid st = bool_decide (errors st = ∅)
  /\ (isValid st = true <-> forall name, getFieldError st name = None).
Proof.
  intros st. split; [done|].
  assert (Hvalid : isValid st = bool_decide (errors st = ∅)).
  { unfold isValid. apply bool_decide_ext.
    rewrite size_dom. apply map_size_empty_iff. }
  split; [done|]. rewrite Hvalid, bool_decide_eq_true.
  unfold getFieldError. split.
  - intros -> name. apply lookup_empty.
  - intros Hnone. by apply map_empty.
Qed.

(** Whole-form validation by [nameSchema] reports issues under "name"
    only. *)
Lemma nameSchema_issues v issues issue k :
  parse samples.nameSchema v = Throw (ZodError issues) ->
  issue ∈ issues -> fieldName issue = Some k ->
  k ∈ fieldNames samples.nameSchema.
Proof.
  intros Hparse Hin Hname.
  assert (Hcases : exists message code,
    issues = [samples.at_key "name" (samples.issue message code)]
    \/ issues = [samples.issue message code]).
  { destruct v as [| |b|n|s|props|entries]; simpl in Hparse;
      try (injection Hparse as <-; by eauto).
    destruct (obj_get "name" props) as [| |b|n|s|props'|entries];
      simpl in Hparse; try (injection Hparse as <-; by eauto).
    destruct (decide _); [done|]. injection Hparse as <-. by eauto. }
  destruct Hcases as (message & code & [-> | ->]);
    apply list_elem_of_singleton in Hin as ->; [|done].
  injection Hname as <-. unfold fieldNames. simpl.
  rewrite dom_insert_L. set_solver.
Qed.

(** C8, as the code has it. In every state a run reaches, a key of the
    errors cell is a field name of the schema or the field name of an issue
    that whole-form validation reported for a submitted form; so the keys
    are field names of the schema whenever whole-form validation reports
    issues under those names only. *)
Theorem errors_keys
  (input : ActionizeInput) (steps : list Step) (k : string) :
  k ∈ dom (errors (run input initialState steps)) ->
  (k ∈ fieldNames (schema input)
   \/ exists formDataObj issues issue,
        DoFormAction formDataObj ∈ steps
        /\ parse (schema input) (fromEntries formDataObj)
           = Throw (ZodError issues)
        /\ issue ∈ issues /\ fieldName issue = Some k)
  /\ ((forall formDataObj issues issue name,
         parse (schema input) (fromEntries formDataObj)
           = Throw (ZodError issues) ->
         issue ∈ issues -> fieldName issue = Some name ->
         name ∈ fieldNames (schema input)) ->
      k ∈ fieldNames (schema input)).
Proof.
  intros Hk. pose proof (run_errors_keys input steps k Hk) as Hkeys.
  split; [done|]. intros Hschema.
  destruct Hkeys as [?|(fd & issues & issue & _ & Hparse & Hin & Hname)];
    [done|]. by apply (Hschema fd issues issue k).
Qed.

Lemma errors_keys_witness :
  "name" ∈ dom (errors (run nameForm initialState
                         [DoFormAction [("name", "")]]))
  /\ "name" ∈ fieldNames (schema nameForm).
Proof.
  assert (Hk : "name" ∈ dom (errors (run nameForm initialState
                                      [DoFormAction [("name", "")]]))).
  { apply elem_of_dom. vm_compute. eauto. }
  split; [exact Hk|].
  apply (errors_keys nameForm [DoFormAction [("name", "")]] "name" Hk).
  intros formDataObj issues issue name.
  apply nameSchema_issues.
Defined.

(** C8 as stated fails: [rejectingSchema] has the one field "name", its
    refinement reports under "form", and after a submission the errors cell
    has the key "form". *)
Lemma errors_key_outside_shape :
  let st := run rejectingForm initialState
              [DoFormAction [("name", "Alice")]] in
  fieldNames (schema rejectingForm) = {["name"]}
  /\ errors st !! "form" = Some {| message := "Rejected"; type := "custom" |}
  /\ ~ dom (errors st) ⊆ fieldNames (schema rejectingForm).
Proof.
  intros st.
  assert (Hnames : fieldNames (schema rejectingForm) = {["name"]}).
  { unfold fieldNames. simpl. rewrite dom_insert_L. set_solver. }
  assert (Hform : errors st !! "form"
                  = Some {| message := "Rejected"; type := "custom" |})
    by (vm_compute; reflexivity).
  split; [exact Hnames|]. split; [exact Hform|].
  intros Hsub. rewrite Hnames in Hsub.
  assert (Hin : "form" ∈ dom (errors st)) by (apply elem_of_dom; eauto).
  apply Hsub in Hin. by apply elem_of_singleton in Hin.
Qed.

(** * Further properties *)

(** ** createServerAction *)

(** X1. On a payload the schema accepts and a handler that fulfils, the
    action fulfils with the handler's result, and the handler was called
    once, with the value the schema parsed (not with the raw mapping). *)
Theorem createServerAction_success
  (schema : ZodType) (handler : JsValue -> Settled)
  (prevState : JsValue) (formData : FormData) (parsedData result : JsValue) :
  parse schema (fromEntries formData) = Ok parsedData ->
  handler parsedData = Ok result ->
  run_action schema handler prevState formData =
    (Ok result, [HandlerCall parsedData]).
Proof.
  intros Hparse Hres. unfold run_action.
  rewrite (createServerAction_parsed _ _ _ _ parsedData) by done.
  by rewrite Hres.
Qed.

Lemma createServerAction_success_witness :
  run_action samples.nameSchema samples.echo VNull
    [("name", "Alice"); ("token", "x")] =
    (Ok (VObject [("name", VStr "Alice")]),
     [HandlerCall (VObject [("name", VStr "Alice")])]).
Proof.
  apply (createServerAction_success samples.nameSchema samples.echo VNull
           [("name", "Alice"); ("token", "x")]
           (VObject [("name", VStr "Alice")])
           (VObject [("name", VStr "Alice")])); reflexivity.
Defined.

(** X2. When [schema.parse] throws something that is not a [ZodError], the
    action rejects with that very error and the handler is not called. *)
Theorem createServerAction_parse_throws
  (schema : ZodType) (handler : JsValue -> Settled)
  (prevState : JsValue) (formData : FormData) (e : JsError) :
  parse schema (fromEntries formData) = Throw e ->
  (forall issues, e ≠ ZodError issues) ->
  run_action schema handler prevState formData = (Throw e, []).
Proof.
  intros Hparse Hno.
  unfold run_action, createServerAction, try_catch, lift, throw.
  unfold mbind, eff_bind. rewrite Hparse.
  destruct e; [by edestruct Hno|done..].
Qed.

Lemma createServerAction_parse_throws_witness :
  run_action throwingSchema samples.echo VNull [("name", "Alice")] =
    (Throw (Error "boom"), []).
Proof.
  apply (createServerAction_parse_throws throwingSchema samples.echo VNull
           [("name", "Alice")] (Error "boom")); [reflexivity|discriminate].
Defined.

(** X3. The handler is called only on a payload the schema accepted, then
    exactly once and with the parsed value; and the previous state plays
    no part in what the action does. *)
Theorem createServerAction_handler_calls
  (schema : ZodType) (handler : JsValue -> Settled)
  (prevState prevState' : JsValue) (formData : FormData) :
  (run_action schema handler prevState formData).2 =
    match parse schema (fromEntries formData) with
    | Ok parsedData => [HandlerCall parsedData]
    | Throw _ => []
    end
  /\ run_action schema handler prevState formData =
     run_action schema handler prevState' formData.
Proof.
  split; [|done].
  unfold run_action, createServerAction, try_catch, call_handler, lift,
    modify, throw.
  unfold mbind, eff_bind.
  destruct (parse schema (fromEntries formData)) as [parsed|[?|?|?]];
    [|done..].
  simpl. by destruct (handler parsed) as [?|[?|?|?]].
Qed.

(** ** Converting form data *)

Lemma obj_get_set k k' v o :
  obj_get k (obj_set k' v o) = if decide (k = k') then v else obj_get k o.
Proof.
  induction o as [|[k0 v0] o IH]; simpl.
  - by destruct (decide (k = k')).
  - destruct (decide (k' = k0)) as [->|Hne]; simpl.
    + by destruct (decide (k = k0)).
    + rewrite IH. destruct (decide (k = k0)) as [->|?]; [|done].
      by rewrite decide_False.
Qed.

Lemma obj_set_fresh k v o :
  k ∉ o.*1 -> obj_set k v o = o ++ [(k, v)].
Proof.
  induction o as [|[k0 v0] o IH]; simpl; [done|].
  intros Hfresh. apply not_elem_of_cons in Hfresh as [Hne Hfresh].
  rewrite decide_False by done. by rewrite IH.
Qed.

(** X4. In the mapping converted from a [FormData], a name that occurs in
    no entry reads as [undefined], and a name that occurs several times
    reads as the value of its last entry: earlier values are lost. *)
Theorem fromEntries_property (formData : FormData) (k : string) :
  property k (fromEntries formData) =
    match last (filter (fun kv => kv.1 = k) formData) with
    | Some kv => VStr kv.2
    | None => VUndefined
    end.
Proof.
  unfold fromEntries, property, FormData in *.
  induction formData as [|[k' v'] formData IH] using rev_ind; [done|].
  rewrite foldl_app, filter_app. simpl. rewrite obj_get_set, IH.
  rewrite filter_cons, filter_nil. simpl.
  destruct (decide (k = k')) as [->|Hne].
  - rewrite decide_True by done. by rewrite last_snoc.
  - rewrite decide_False by done. by rewrite app_nil_r.
Qed.

Lemma fromEntries_stringified (props : list (string * JsValue)) :
  NoDup props.*1 ->
  fromEntries (appendEntries props) =
    VObject ((fun kv => (kv.1, VStr (js_String kv.2))) <$> props).
Proof.
  unfold fromEntries, appendEntries. intros Hdistinct. f_equal.
  induction props as [|[k v] props IH] using rev_ind; [done|].
  rewrite fmap_app in Hdistinct. apply NoDup_app in Hdistinct
    as (Hprops & Hfresh & _).
  rewrite !fmap_app, foldl_app. simpl. rewrite IH by done.
  apply obj_set_fresh. rewrite <- list_fmap_compose.
  intros Hin. apply (Hfresh k); [exact Hin|simpl; left].
Qed.

(** X5. For a [data] object (its property names are distinct), the mapping
    that a server action converts from the [FormData] built by
    [executeAction] has the properties of [data], in the same order, each
    value replaced by its string; when the values of [data] are strings
    already, it is [data] again. *)
Theorem fromEntries_appendEntries (props : list (string * JsValue)) :
  NoDup props.*1 ->
  fromEntries (appendEntries props) =
    VObject ((fun kv => (kv.1, VStr (js_String kv.2))) <$> props)
  /\ (Forall (fun kv => exists s, kv.2 = VStr s) props ->
      fromEntries (appendEntries props) = VObject props).
Proof.
  intros Hdistinct. rewrite fromEntries_stringified by done.
  split; [done|]. intros Hstrings. f_equal. clear Hdistinct.
  induction Hstrings as [|[k v] props [s Hs] _ IH]; [done|].
  rewrite fmap_cons, IH. simpl in *. by rewrite Hs.
Qed.

Lemma fromEntries_appendEntries_witness :
  fromEntries (appendEntries [("age", VNum 30); ("agree", VBool true)]) =
    VObject [("age", VStr "30"); ("agree", VStr "true")].
Proof.
  apply (fromEntries_appendEntries [("age", VNum 30); ("agree", VBool true)]).
  apply (bool_decide_unpack _). vm_compute. reflexivity.
Defined.

(** ** useActionize: submissions, further *)

(** X6. When the action of the hook is built by [createServerAction],
    [executeAction(data)] has the data validated twice: as given by the
    hook, then stringified by the action.  Data that pass the first and fail
    the second start a transition that ends in [onError] (if given) with the
    joined messages; neither the handler nor [onSuccess] is called. *)
Theorem executeAction_server_action_refuses
  (input : ActionizeInput) (server : ZodType) (handler : JsValue -> Settled)
  (props : list (string * JsValue)) (parsed : JsValue)
  (issues : list z.ZodIssue) (st : HookState) :
  (forall prevState formData,
     action input prevState formData =
       (run_action server handler prevState formData).1) ->
  parse (schema input) (VObject props) = Ok parsed ->
  parse server (fromEntries (appendEntries props)) = Throw (ZodError issues) ->
  let st1 := (executeAction input (Some props) st).2 in
  let st2 := (settle input (length (transitions st)) st1).2 in
  isPending st1 = true
  /\ (run_action server handler (state input) (appendEntries props)).2 = []
  /\ onSuccess_calls (calls st2) = onSuccess_calls (calls st)
  /\ onError_calls (calls st2) =
       onError_calls (calls st) ++
         match onError input with
         | Some _ => [Error (join ", " (z.message <$> issues))]
         | None => []
         end.
Proof.
  intros Haction Hhook Hserver st1 st2. subst st1 st2.
  rewrite (executeAction_accepted input (Some props) parsed) by done.
  assert (Hrejects : action input (state input) (submitted (Some props)) =
                     Throw (Error (join ", " (z.message <$> issues)))).
  { rewrite Haction. simpl. unfold run_action.
    by rewrite (createServerAction_refused _ _ _ _ issues). }
  rewrite Hrejects. split.
  { unfold isPending. simpl. apply bool_decide_eq_true.
    by destruct (transitions st). }
  split.
  { unfold run_action. by rewrite (createServerAction_refused _ _ _ _ issues). }
  rewrite (settle_cells input _
             (Throw (Error (join ", " (z.message <$> issues)))))
    by (simpl; by rewrite list_lookup_middle).
  unfold onSuccess_calls, onError_calls. simpl. rewrite !omap_app. simpl.
  rewrite !app_nil_r. split.
  - destruct (onError input); simpl; by rewrite app_nil_r.
  - by destruct (onError input).
Qed.

Lemma executeAction_server_action_refuses_witness :
  let st1 := (executeAction consentServerForm (Some [("agree", VBool true)])
                initialState).2 in
  let st2 := (settle consentServerForm 0 st1).2 in
  onSuccess_calls (calls st2) = []
  /\ onError_calls (calls st2) =
       [Error "Invalid input: expected boolean, received string"].
Proof.
  destruct (executeAction_server_action_refuses consentServerForm
              samples.consentSchema samples.echo [("agree", VBool true)]
              (VObject [("agree", VBool true)])
              [samples.at_key "agree"
                 (samples.invalid_type "boolean" (VStr "true"))]
              initialState (fun _ _ => eq_refl) eq_refl eq_refl)
    as (_ & _ & Hsuccess & Herror).
  split; [exact Hsuccess|exact Herror].
Defined.

(** X7. Something other than a [ZodError] thrown by a [parse] is swallowed
    by the hook: [formAction], [executeAction] and single-field validation
    return normally and leave every cell as it was; no callback is called,
    not even [onError], and no error is stored. *)
Theorem parse_throw_swallowed
  (input : ActionizeInput) (e : JsError) (st : HookState) :
  (forall issues, e ≠ ZodError issues) ->
  (forall formDataObj,
     parse (schema input) (fromEntries formDataObj) = Throw e ->
     enhancedFormAction input formDataObj st = (Ok tt, st))
  /\ (forall data,
        parse (schema input) (dataToSubmit data) = Throw e ->
        executeAction input data st = (Ok tt, st))
  /\ (forall name sub value,
        fieldSchema (schema input) name = Some sub ->
        parse sub value = Throw e ->
        validateField input name value st = (Ok tt, st)).
Proof.
  intros Hno. split; [|split].
  - intros formDataObj Hparse. by apply (enhancedFormAction_threw input _ e).
  - intros data Hparse. by apply (executeAction_threw input _ e).
  - intros name sub value Hsub Hparse. eff_unfold. rewrite Hsub, Hparse.
    destruct e; [by edestruct Hno|done..].
Qed.

Lemma parse_throw_swallowed_witness :
  enhancedFormAction throwingForm [("name", "Alice")] initialState
    = (Ok tt, initialState)
  /\ executeAction throwingForm (Some [("name", VStr "Alice")]) initialState
     = (Ok tt, initialState)
  /\ validateField throwingForm "name" (VStr "Alice") initialState
     = (Ok tt, initialState).
Proof.
  assert (Hno : forall issues, Error "boom" ≠ ZodError issues)
    by (intros issues; discriminate).
  destruct (parse_throw_swallowed throwingForm (Error "boom") initialState Hno)
    as (Hform & Hexecute & Hfield).
  split; [exact (Hform [("name", "Alice")] eq_refl)|].
  split; [exact (Hexecute (Some [("name", VStr "Alice")]) eq_refl)|].
  exact (Hfield "name" {| parse := fun _ => Throw (Error "boom") |}
           (VStr "Alice") eq_refl eq_refl).
Defined.

Lemma fieldErrorsOf_unnamed issues :
  Forall (fun i => fieldName i = None) issues -> fieldErrorsOf issues = ∅.
Proof.
  intros Hunnamed. apply map_empty. intros k.
  rewrite fieldErrorsOf_lookup.
  replace (filter (fun i => fieldName i = Some k) issues) with (@nil z.ZodIssue);
    [done|].
  induction Hunnamed as [|issue issues Hissue _ IH]; [done|].
  rewrite filter_cons, decide_False by congruence. done.
Qed.

(** X8. When whole-form validation fails with issues none of which has a
    field name (a form-level refinement reports with the empty path),
    [formAction] empties the errors cell, so the form counts as valid; it
    starts no transition and calls no callback: the failed submission
    leaves no trace. *)
Theorem formAction_unnamed_issues
  (input : ActionizeInput) (formDataObj : FormData)
  (issues : list z.ZodIssue) (st : HookState) :
  parse (schema input) (fromEntries formDataObj) = Throw (ZodError issues) ->
  Forall (fun i => fieldName i = None) issues ->
  let st1 := (enhancedFormAction input formDataObj st).2 in
  errors st1 = ∅
  /\ isValid st1 = true
  /\ buttonDisabled st1 = isPending st
  /\ transitions st1 = transitions st
  /\ calls st1 = calls st.
Proof.
  intros Hparse Hunnamed st1. subst st1.
  rewrite (enhancedFormAction_refused input _ issues) by done.
  rewrite fieldErrorsOf_unnamed by done.
  unfold buttonDisabled, isValid, isPending. simpl.
  rewrite dom_empty_L, size_empty. repeat split; try done.
  by rewrite orb_false_r.
Qed.

Lemma formAction_unnamed_issues_witness :
  let st0 := step formLevelForm initialState
               (DoBlur "name" {| target_value := "" |}) in
  let st1 := (enhancedFormAction formLevelForm [("name", "Alice")] st0).2 in
  errors st0 !! "name"
    = Some {| message := "Name is required"; type := "too_small" |}
  /\ errors st1 = ∅ /\ calls st1 = [] /\ buttonDisabled st1 = false.
Proof.
  intros st0 st1.
  destruct (formAction_unnamed_issues formLevelForm [("name", "Alice")]
              [{| z.path := []; z.message := "Rejected"; z.code := "custom" |}]
              st0 eq_refl)
    as (Herrors & _ & Hbutton & _ & Hcalls).
  { by apply Forall_singleton. }
  split; [vm_compute; reflexivity|]. split; [exact Herrors|].
  split; [exact Hcalls|exact Hbutton].
Defined.

(** X9. An exception thrown by [onSuccess] does not escape the transition:
    it is handed to [onError] when that is given, and dropped otherwise; the
    transition leaves the in-flight list either way. *)
Theorem onSuccess_exception_routed
  (input : ActionizeInput) (i : nat) (result : JsValue)
  (callback : JsValue -> option JsError) (thrown : JsError) (st : HookState) :
  transitions st !! i = Some (Ok result) ->
  onSuccess input = Some callback ->
  callback result = Some thrown ->
  let st1 := (settle input i st).2 in
  calls st1 =
    calls st ++ OnSuccess result ::
      match onError input with
      | Some _ => [OnError thrown]
      | None => []
      end
  /\ transitions st1 = delete i (transitions st)
  /\ (settle input i st).1 =
       match onError input with
       | Some handler =>
           match handler thrown with
           | Some rethrown => Throw rethrown
           | None => Ok tt
           end
       | None => Ok tt
       end.
Proof.
  intros Hi Hcb Hthrows st1. subst st1.
  rewrite (settle_cells input i (Ok result)) by done. simpl.
  rewrite Hcb, Hthrows. split; [done|]. split; [done|].
  unfold settle, Settled in *. cbv beta. rewrite Hi. eff_unfold.
  rewrite Hcb, Hthrows. simpl.
  destruct (onError input) as [handler|]; [|done].
  by destruct (handler thrown).
Qed.

Lemma onSuccess_exception_routed_witness :
  let st0 := (enhancedFormAction clumsyForm [("name", "Alice")]
                initialState).2 in
  calls (settle clumsyForm 0 st0).2 =
    [ActionCall (state clumsyForm) [("name", "Alice")];
     OnSuccess (VObject [("name", VStr "Alice")]);
     OnError (Error "render failed")]
  /\ (settle clumsyForm 0 st0).1 = Ok tt.
Proof.
  intros st0.
  destruct (onSuccess_exception_routed clumsyForm 0
              (VObject [("name", VStr "Alice")])
              (fun _ => Some (Error "render failed")) (Error "render failed")
              st0 eq_refl eq_refl eq_refl) as (Hcalls & _ & Hresult).
  split; [exact Hcalls|exact Hresult].
Defined.

(** X10. What [executeAction] returns to its caller: it throws exactly when
    validation failed with a [ZodError] and the [onError] it then called
    threw; the field handlers never throw. *)
Theorem hook_exceptions
  (input : ActionizeInput) (data : option (list (string * JsValue)))
  (rendered st : HookState) (name : string) (e : InputEvent) :
  (executeAction input data st).1 =
    match parse (schema input) (dataToSubmit data), onError input with
    | Throw (ZodError issues), Some handler =>
        match handler (Error (join ", " (z.message <$> issues))) with
        | Some thrown => Throw thrown
        | None => Ok tt
        end
    | _, _ => Ok tt
    end
  /\ (onChange (register input rendered name) e st).1 = Ok tt
  /\ (onBlur (register input rendered name) e st).1 = Ok tt.
Proof.
  split; [|split].
  - destruct (parse (schema input) (dataToSubmit data))
      as [parsed|[issues|msg|v]] eqn:Hparse.
    + by rewrite (executeAction_accepted input data parsed).
    + rewrite (executeAction_refused input data issues) by done.
      rewrite call_onError_run. destruct (onError input) as [handler|]; done.
    + rewrite (executeAction_threw input data (Error msg)) by done.
      by destruct (onError input).
    + rewrite (executeAction_threw input data (ThrownValue v)) by done.
      by destruct (onError input).
  - simpl. unfold setFormData, modify. unfold mbind, eff_bind.
    destruct (decide _); [apply validateField_returns|done].
  - rewrite onBlur_run. apply validateField_returns.
Qed.

(** ** useActionize: the cells along a run, further *)

Section run_facts_further.

Context (input : ActionizeInput).

Lemma step_formData st s :
  formData (step input st s) =
    match s with
    | DoChange name e => <[name := target_value e]> (formData st)
    | _ => formData st
    end.
Proof.
  destruct s as [name e|name e|formDataObj|data|i]; unfold step.
  - destruct (decide (name ∈ touchedFields st)).
    + rewrite onChange_touched by done.
      by destruct (validateField_frame input name (VStr (target_value e))
           (with_formData (insert name (target_value e)) st))
        as (-> & _).
    + by rewrite onChange_untouched.
  - rewrite onBlur_run.
    by destruct (validateField_frame input name (VStr (target_value e))
         (with_touchedFields (fun prev => prev ∪ {[name]}) st))
      as (-> & _).
  - eff_unfold. by destruct (parse _ _) as [?|[?|?|?]].
  - eff_unfold.
    destruct (parse _ _) as [?|[?|?|?]]; simpl; try done.
    destruct (onError input) as [callback|]; simpl; [|done].
    by destruct (callback _).
  - destruct (transitions st !! i) as [awaited|] eqn:Hi.
    + by rewrite (settle_cells input i awaited).
    + by rewrite settle_idle.
Qed.

Lemma action_calls_settled awaited :
  action_calls (settled_calls input awaited) = [].
Proof.
  unfold settled_calls.
  destruct awaited as [result|error]; destruct (onSuccess input) as [cb|];
    destruct (onError input); simpl; try done.
  - by destruct (cb result).
  - by destruct (cb result).
Qed.

Lemma step_action_calls st s :
  action_calls (calls (step input st s)) =
    action_calls (calls st) ++
      match accepted input s with
      | Some formData => [(initialData input, formData)]
      | None => []
      end.
Proof.
  destruct s as [name e|name e|formDataObj|data|i]; unfold step, accepted.
  - rewrite app_nil_r. destruct (decide (name ∈ touchedFields st)).
    + rewrite onChange_touched by done.
      by destruct (validateField_frame input name (VStr (target_value e))
           (with_formData (insert name (target_value e)) st))
        as (_ & _ & _ & -> & _).
    + by rewrite onChange_untouched.
  - rewrite app_nil_r, onBlur_run.
    by destruct (validateField_frame input name (VStr (target_value e))
         (with_touchedFields (fun prev => prev ∪ {[name]}) st))
      as (_ & _ & _ & -> & _).
  - destruct (parse (schema input) (fromEntries formDataObj))
      as [parsed|[issues|msg|v]] eqn:Hparse.
    + rewrite (enhancedFormAction_accepted input _ parsed) by done.
      unfold action_calls. simpl. by rewrite omap_app.
    + rewrite (enhancedFormAction_refused input _ issues) by done.
      simpl. by rewrite app_nil_r.
    + rewrite (enhancedFormAction_threw input _ (Error msg)) by done.
      by rewrite app_nil_r.
    + rewrite (enhancedFormAction_threw input _ (ThrownValue v)) by done.
      by rewrite app_nil_r.
  - destruct (parse (schema input) (dataToSubmit data))
      as [parsed|[issues|msg|v]] eqn:Hparse.
    + rewrite (executeAction_accepted input _ parsed) by done.
      unfold action_calls. simpl. by rewrite omap_app.
    + rewrite (executeAction_refused input _ issues) by done.
      rewrite call_onError_run, app_nil_r.
      destruct (onError input); simpl; [|done].
      unfold action_calls. rewrite omap_app. simpl. by rewrite app_nil_r.
    + rewrite (executeAction_threw input _ (Error msg)) by done.
      by rewrite app_nil_r.
    + rewrite (executeAction_threw input _ (ThrownValue v)) by done.
      by rewrite app_nil_r.
  - rewrite app_nil_r. destruct (transitions st !! i) as [awaited|] eqn:Hi.
    + rewrite (settle_cells input i awaited) by done. simpl.
      unfold action_calls. rewrite omap_app.
      fold (action_calls (settled_calls input awaited)).
      by rewrite action_calls_settled, app_nil_r.
    + by rewrite settle_idle.
Qed.

Lemma step_transitions st s :
  (length (transitions (step input st s)) ≤
     length (transitions st) +
       match accepted input s with Some _ => 1 | None => 0 end)%nat.
Proof.
  destruct s as [name e|name e|formDataObj|data|i]; unfold step, accepted.
  - destruct (decide (name ∈ touchedFields st)).
    + rewrite onChange_touched by done.
      destruct (validateField_frame input name (VStr (target_value e))
           (with_formData (insert name (target_value e)) st))
        as (_ & _ & -> & _). simpl. lia.
    + rewrite onChange_untouched by done. simpl. lia.
  - rewrite onBlur_run.
    destruct (validateField_frame input name (VStr (target_value e))
         (with_touchedFields (fun prev => prev ∪ {[name]}) st))
      as (_ & _ & -> & _). simpl. lia.
  - destruct (parse (schema input) (fromEntries formDataObj))
      as [parsed|[issues|msg|v]] eqn:Hparse.
    + rewrite (enhancedFormAction_accepted input _ parsed) by done.
      simpl. rewrite length_app. simpl. lia.
    + rewrite (enhancedFormAction_refused input _ issues) by done.
      simpl. lia.
    + rewrite (enhancedFormAction_threw input _ (Error msg)) by done. simpl. lia.
    + rewrite (enhancedFormAction_threw input _ (ThrownValue v)) by done. simpl. lia.
  - destruct (parse (schema input) (dataToSubmit data))
      as [parsed|[issues|msg|v]] eqn:Hparse.
    + rewrite (executeAction_accepted input _ parsed) by done.
      simpl. rewrite length_app. simpl. lia.
    + rewrite (executeAction_refused input _ issues) by done.
      rewrite call_onError_run.
      destruct (onError input); simpl; lia.
    + rewrite (executeAction_threw input _ (Error msg)) by done. simpl. lia.
    + rewrite (executeAction_threw input _ (ThrownValue v)) by done. simpl. lia.
  - destruct (transitions st !! i) as [awaited|] eqn:Hi.
    + rewrite (settle_cells input i awaited) by done. simpl.
      rewrite length_delete by eauto. lia.
    + rewrite settle_idle by done. simpl. lia.
Qed.

End run_facts_further.

(** X11. Along any run from the first render, [action] is called once for
    each submission whose validation passed, in order, with the [FormData]
    of that submission and always with the initial data as previous state
    (the state never advances); a refused submission never reaches it, and a
    pending transition does not hold a submission back. *)
Theorem action_called_per_accepted_submission
  (input : ActionizeInput) (steps : list Step) :
  action_calls (calls (run input initialState steps)) =
    (fun formData => (initialData input, formData)) <$>
      omap (accepted input) steps.
Proof.
  induction steps as [|s steps IH] using rev_ind; [done|].
  rewrite run_snoc, step_action_calls, IH, omap_app, fmap_app. f_equal.
  simpl. by destruct (accepted input s).
Qed.

(** X12. Along any run from the first render there are never more
    transitions in flight than submissions that passed validation; so the
    pending flag is false, and the button is enabled by a valid form, as
    long as no submission has passed. *)
Theorem pending_needs_accepted_submission
  (input : ActionizeInput) (steps : list Step) :
  let st := run input initialState steps in
  (length (transitions st) ≤ length (omap (accepted input) steps))%nat
  /\ (omap (accepted input) steps = [] ->
      isPending st = false /\ buttonDisabled st = negb (isValid st)).
Proof.
  intros st. subst st.
  assert (Hbound :
    (length (transitions (run input initialState steps))
       ≤ length (omap (accepted input) steps))%nat).
  { induction steps as [|s steps IH] using rev_ind; [done|].
    rewrite run_snoc, omap_app, length_app.
    pose proof (step_transitions input (run input initialState steps) s)
      as Hstep.
    simpl. destruct (accepted input s); simpl in *; lia. }
  split; [exact Hbound|]. intros Hnone. rewrite Hnone in Hbound.
  assert (Hidle : isPending (run input initialState steps) = false).
  { unfold isPending. apply bool_decide_eq_false. intros Hinflight.
    apply Hinflight. apply length_zero_iff_nil. simpl in Hbound. lia. }
  split; [exact Hidle|]. unfold buttonDisabled. by rewrite Hidle.
Qed.

Lemma pending_needs_accepted_submission_witness :
  let steps := [DoChange "name" {| target_value := "" |};
                DoFormAction [("name", "")];
                DoExecuteAction None;
                DoSettle 0] in
  isPending (run nameForm initialState steps) = false.
Proof.
  intros steps.
  destruct (pending_needs_accepted_submission nameForm steps) as [_ Hidle].
  exact (proj1 (Hidle eq_refl)).
Defined.

(** X13. Along any run from the first render, the touched set holds exactly
    the fields that were blurred: nothing else adds a field to it, and
    nothing removes one (no change, submission or settlement resets it). *)
Theorem touchedFields_are_blurred
  (input : ActionizeInput) (steps : list Step) (name : string) :
  name ∈ touchedFields (run input initialState steps)
  <-> name ∈ omap blurred steps.
Proof.
  induction steps as [|s steps IH] using rev_ind.
  { simpl. set_solver. }
  rewrite run_snoc, step_touchedFields, omap_app, elem_of_app.
  destruct s as [other e|other e|formDataObj|data|i]; simpl;
    rewrite ?elem_of_nil; try tauto.
  rewrite elem_of_union, elem_of_singleton, list_elem_of_singleton. tauto.
Qed.

(** X14. Along any run from the first render, the stored value of a field
    is the last value typed into it, and [register(name).value] is that
    value, or the empty string for a field never typed into.  Blurs and
    submissions, accepted or not, never change or reset the values. *)
Theorem formData_is_last_typed
  (input : ActionizeInput) (steps : list Step) (name : string) :
  let st := run input initialState steps in
  formData st !! name = last (omap (typed name) steps)
  /\ value (register input st name) = default "" (last (omap (typed name) steps)).
Proof.
  intros st. subst st.
  assert (Hstored : formData (run input initialState steps) !! name
                    = last (omap (typed name) steps)).
  { induction steps as [|s steps IH] using rev_ind; [done|].
    rewrite run_snoc, step_formData, omap_app.
    destruct s as [other e|other e|formDataObj|data|i]; simpl;
      rewrite ?app_nil_r; try done.
    destruct (decide (other = name)) as [->|Hne].
    - by rewrite lookup_insert_eq, last_snoc.
    - by rewrite lookup_insert_ne, app_nil_r. }
  split; [exact Hstored|]. simpl. rewrite Hstored.
  destruct (last (omap (typed name) steps)) as [typed_value|]; simpl; [|done].
  by destruct (decide (typed_value = "")) as [->|].
Qed.

Section event_facts.

Context (input : ActionizeInput).

Lemma validateField_again name value st :
  (validateField input name value (validateField input name value st).2).2
    = (validateField input name value st).2.
Proof.
  destruct (fieldSchema (schema input) name) as [sub|] eqn:Hsub.
  - destruct (parse sub value) as [parsed|[issues|msg|v]] eqn:Hparse.
    + rewrite !(validateField_passes input name sub value parsed) by done.
      unfold with_errors; simpl. f_equal. apply delete_delete_eq.
    + rewrite !(validateField_fails input name sub value issues) by done.
      unfold with_errors; simpl. f_equal. apply insert_insert_eq.
    + eff_unfold. by rewrite Hsub, Hparse.
    + eff_unfold. by rewrite Hsub, Hparse.
  - by rewrite !validateField_absent.
Qed.

Lemma with_formData_stored name stored st :
  formData st !! name = Some stored ->
  with_formData (insert name stored) st = st.
Proof.
  intros Hstored. destruct st. unfold with_formData. simpl in *.
  f_equal. by apply insert_id.
Qed.

Lemma with_touchedFields_member name st :
  name ∈ touchedFields st ->
  with_touchedFields (fun prev => prev ∪ {[name]}) st = st.
Proof.
  intros Htouched. destruct st. unfold with_touchedFields. simpl in *.
  f_equal. set_solver.
Qed.

End event_facts.

(** X15. Delivering the same change event, or the same blur event, a second
    time changes nothing: the whole state after the second delivery is the
    state after the first. *)
Theorem repeated_event_changes_nothing
  (input : ActionizeInput) (name : string) (e : InputEvent) (st : HookState) :
  step input (step input st (DoChange name e)) (DoChange name e)
    = step input st (DoChange name e)
  /\ step input (step input st (DoBlur name e)) (DoBlur name e)
     = step input st (DoBlur name e).
Proof.
  split.
  - assert (Hkept : touchedFields (step input st (DoChange name e))
                    = touchedFields st) by apply step_touchedFields.
    assert (Hstored : formData (step input st (DoChange name e)) !! name
                      = Some (target_value e)).
    { rewrite step_formData. apply lookup_insert_eq. }
    destruct (decide (name ∈ touchedFields st)) as [Htouched|Hfresh].
    + unfold step at 1. rewrite onChange_touched by (by rewrite Hkept).
      rewrite with_formData_stored by done.
      unfold step. rewrite onChange_touched by done.
      apply validateField_again.
    + unfold step at 1. rewrite onChange_untouched by (by rewrite Hkept).
      simpl. by apply with_formData_stored.
  - assert (Htouched : name ∈ touchedFields (step input st (DoBlur name e))).
    { rewrite step_touchedFields. set_solver. }
    unfold step at 1. rewrite onBlur_run.
    rewrite with_touchedFields_member by done.
    unfold step. rewrite onBlur_run. apply validateField_again.
Qed.

(** X16. As long as no field was blurred and no native form submission was
    made, the errors cell is empty and the form counts as valid, whatever
    was typed and whatever [executeAction] was given: typing and
    programmatic submissions alone never produce a field error. *)
Theorem no_error_before_blur_or_submit
  (input : ActionizeInput) (steps : list Step) :
  Forall (fun s => blurred s = None /\ is_formAction s = false) steps ->
  let st := run input initialState steps in
  errors st = ∅ /\ touchedFields st = ∅ /\ isValid st = true.
Proof.
  intros Hsteps st. subst st.
  assert (Hcells : errors (run input initialState steps) = ∅
                   /\ touchedFields (run input initialState steps) = ∅).
  { induction steps as [|s steps IH] using rev_ind; [done|].
    apply Forall_app in Hsteps as [Hsteps Hs].
    apply Forall_singleton in Hs as [Hblur Hform].
    destruct (IH Hsteps) as [Herrors Htouched]. rewrite run_snoc.
    split.
    - pose proof (step_errors input (run input initialState steps) s) as Hstep.
      destruct s as [name e|name e|formDataObj|data|i]; try done.
      + unfold step. rewrite onChange_untouched; [done|].
        rewrite Htouched. set_solver.
      + by rewrite Hstep.
      + by rewrite Hstep.
    - rewrite step_touchedFields.
      by destruct s as [name e|name e|formDataObj|data|i]. }
  destruct Hcells as [Herrors Htouched]. split; [done|]. split; [done|].
  unfold isValid. rewrite Herrors, dom_empty_L, size_empty. done.
Qed.

Lemma no_error_before_blur_or_submit_witness :
  let steps := [DoChange "name" {| target_value := "" |};
                DoExecuteAction (Some [("name", VStr "")]);
                DoExecuteAction None] in
  errors (run nameForm initialState steps) = ∅
  /\ onError_calls (calls (run nameForm initialState steps)) =
       [Error "Name is required";
        Error "Invalid input: expected string, received undefined"].
Proof.
  intros steps.
  destruct (no_error_before_blur_or_submit nameForm steps) as (Herrors & _).
  { repeat constructor. }
  split; [exact Herrors|reflexivity].
Defined.

(** X17. A native submission that passes validation leaves the form valid
    and the button disabled while it is in flight, whatever errors were
    shown before; once it has settled, nothing else being in flight, the
    button is enabled again. *)
Theorem button_around_formAction
  (input : ActionizeInput) (formDataObj : FormData) (parsed : JsValue)
  (st : HookState) :
  parse (schema input) (fromEntries formDataObj) = Ok parsed ->
  let st1 := (enhancedFormAction input formDataObj st).2 in
  let st2 := (settle input (length (transitions st)) st1).2 in
  isValid st1 = true
  /\ buttonDisabled st1 = true
  /\ (transitions st = [] -> isValid st2 = true /\ buttonDisabled st2 = false).
Proof.
  intros Hparse st1 st2. subst st1 st2.
  rewrite (enhancedFormAction_accepted input _ parsed) by done.
  assert (Hvalid : forall st', errors st' = ∅ -> isValid st' = true).
  { intros st' Hempty. unfold isValid.
    by rewrite Hempty, dom_empty_L, size_empty. }
  split; [by apply Hvalid|]. split.
  { unfold buttonDisabled, isPending. simpl.
    rewrite bool_decide_eq_true_2; [done|]. by destruct (transitions st). }
  intros Hidle.
  rewrite (settle_cells input _ (action input (state input) formDataObj))
    by (simpl; by rewrite list_lookup_middle).
  split; [by apply Hvalid|].
  unfold buttonDisabled. rewrite Hvalid by done.
  unfold isPending. simpl. rewrite delete_middle, app_nil_r, Hidle. done.
Qed.

Lemma button_around_formAction_witness :
  let st0 := step nameForm initialState
               (DoBlur "name" {| target_value := "" |}) in
  let st1 := (enhancedFormAction nameForm [("name", "Alice")] st0).2 in
  let st2 := (settle nameForm 0 st1).2 in
  buttonDisabled st0 = true
  /\ isValid st1 = true /\ buttonDisabled st1 = true
  /\ buttonDisabled st2 = false.
Proof.
  intros st0 st1 st2.
  destruct (button_around_formAction nameForm [("name", "Alice")]
              (VObject [("name", VStr "Alice")]) st0 eq_refl)
    as (Hvalid & Hdisabled & Hsettled).
  split; [vm_compute; reflexivity|]. split; [exact Hvalid|].
  split; [exact Hdisabled|]. exact (proj2 (Hsettled eq_refl)).
Defined.

(** X18. After a native submission was refused with an error for a field
    that was never blurred, typing into that field, even a valid value,
    leaves its error in place and the button disabled: the change handler
    does not validate an untouched field.  A blur with a value the field's
    sub-validator accepts then removes the error. *)
Theorem refused_submit_error_outlives_typing
  (input : ActionizeInput) (formDataObj : FormData)
  (issues : list z.ZodIssue) (name : string) (stored : FieldError)
  (e : InputEvent) (st : HookState) :
  parse (schema input) (fromEntries formDataObj) = Throw (ZodError issues) ->
  fieldErrorsOf issues !! name = Some stored ->
  name ∉ touchedFields st ->
  let st1 := step input st (DoFormAction formDataObj) in
  let st2 := step input st1 (DoChange name e) in
  getFieldError st2 name = Some stored
  /\ isValid st2 = false
  /\ buttonDisabled st2 = true
  /\ (forall sub parsed,
        fieldSchema (schema input) name = Some sub ->
        parse sub (VStr (target_value e)) = Ok parsed ->
        getFieldError (step input st2 (DoBlur name e)) name = None).
Proof.
  intros Hparse Hstored Hfresh st1 st2.
  assert (Hst1 : st1 = with_errors (fun _ => fieldErrorsOf issues) st).
  { subst st1. unfold step.
    by rewrite (enhancedFormAction_refused input _ issues). }
  assert (Hst2 : st2 = with_formData (insert name (target_value e)) st1).
  { subst st2. unfold step. rewrite onChange_untouched; [done|].
    by rewrite Hst1. }
  assert (Herror : getFieldError st2 name = Some stored).
  { unfold getFieldError. by rewrite Hst2, Hst1. }
  assert (Hinvalid : isValid st2 = false).
  { unfold isValid. apply bool_decide_eq_false. intros Hsize.
    apply size_empty_inv in Hsize.
    assert (Hin : name ∈ dom (errors st2))
      by (apply elem_of_dom; unfold getFieldError in Herror; eauto).
    set_solver. }
  split; [exact Herror|]. split; [exact Hinvalid|]. split.
  { unfold buttonDisabled. rewrite Hinvalid. apply orb_true_r. }
  intros sub parsed Hsub Hok. unfold getFieldError, step.
  rewrite onBlur_run.
  rewrite (validateField_passes input name sub _ parsed) by done.
  simpl. apply lookup_delete_eq.
Qed.

Lemma refused_submit_error_outlives_typing_witness :
  let typing := {| target_value := "Alice" |} in
  let st1 := step nameForm initialState (DoFormAction [("name", "")]) in
  let st2 := step nameForm st1 (DoChange "name" typing) in
  getFieldError st2 "name"
    = Some {| message := "Name is required"; type := "too_small" |}
  /\ buttonDisabled st2 = true
  /\ getFieldError (step nameForm st2 (DoBlur "name" typing)) "name" = None.
Proof.
  intros typing st1 st2.
  destruct (refused_submit_error_outlives_typing nameForm [("name", "")]
              [samples.at_key "name"
                 (samples.issue "Name is required" "too_small")]
              "name"
              {| message := "Name is required"; type := "too_small" |}
              typing initialState eq_refl)
    as (Herror & _ & Hdisabled & Hblur).
  { vm_compute. reflexivity. }
  { apply not_elem_of_empty. }
  split; [exact Herror|]. split; [exact Hdisabled|].
  exact (Hblur (samples.string_min 1 "Name is required")
           (VStr "Alice") eq_refl eq_refl).
Defined.
